(** * Session and credit-ledger subsystem of the qubit-discovery-hub front end

    A shallow embedding of
    - [src/contexts/AuthContext.tsx]: [AuthProvider] with the profile
      resolver [fetchUserProfile], the session observer of the mount effect
      and the ledger mutator [updatePoints];
    - [src/pages/Smiles.tsx]: [handleProcessSmiles], 7 points;
    - [src/components/Structure2DViewer.tsx], component [Molecule3DViewer]:
      [generate2DStructure], 1 point, and [open3DVisualization], 3 points;
    - [src/pages/SignUp.tsx], component [Index]: [handleApproachSelection],
      20, 35 or 50 points.

    Numbers are JavaScript numbers that only ever hold integers here (the
    starting balance 1000 and integer prices), so [token_points] is a [Z].
    React state owned by [AuthProvider] and the browser's [localStorage] form
    the [World]; every externally visible effect (storage writes, provider
    calls, HTTP requests, toasts, component-local state setters) is appended
    to the world's [trace], oldest first.  Asynchronous functions are run to
    completion, their awaited promises being given as [Outcome]s. *)

From Stdlib Require Import ZArith String Ascii List Lia.
From Stdlib Require Import DecimalString DecimalZ DecimalPos.
From stdpp Require Import base option gmap strings list.

Local Open Scope Z_scope.
Local Open Scope string_scope.
Local Open Scope list_scope.

(** ** Data model *)

(** [interface UserProfile] of AuthContext.tsx. *)
Record UserProfile : Type := mkUserProfile {
  id : string;
  email : string;
  token_points : Z;
  created_at : string
}.

(** The fields of supabase's [User] that the code reads. *)
Record User : Type := mkUser {
  user_id : string;
  user_email : option string;
  email_confirmed_at : option string
}.

(** supabase's [Session]; [session.user] is the only field read. *)
Record Session : Type := mkSession {
  session_user : User
}.

(** A thrown JavaScript value (an [Error] with its message). *)
Inductive Exn : Type :=
| Error (message : string).

(** The settled state of a promise, and the result of running a function
    body: a value, or a thrown exception / rejection. *)
Inductive Outcome (A : Type) : Type :=
| Resolved (a : A)
| Rejected (e : Exn).
Arguments Resolved {A} a.
Arguments Rejected {A} e.

(** What [supabase.auth.getSession()] resolves to: [{ data: { session },
    error }].  An error result carries a null session. *)
Inductive SessionResponse : Type :=
| SessionData (s : option Session)
| SessionError (err : string).

Definition data_session (r : SessionResponse) : option Session :=
  match r with
  | SessionData s => s
  | SessionError _ => None
  end.

(** What [supabase.auth.getUser()] resolves to: [{ data: { user }, error }]. *)
Inductive UserResponse : Type :=
| UserData (u : option User)
| UserError (err : string).

Definition data_user (r : UserResponse) : option User :=
  match r with
  | UserData u => u
  | UserError _ => None
  end.

(** ** The analysis backend as seen by [fetch] *)

Record Isomer : Type := mkIsomer {
  rank : Z;
  smiles : string;
  visualization : string
}.

(** The JSON body of a backend answer, with the fields the handlers read
    ([undefined] fields are [None]). *)
Record Payload : Type := mkPayload {
  success : bool;
  total_isomers : option Z;
  isomers : option (list Isomer);
  structure_2d : option string;
  error : option string;
  detail : option string
}.

(** A [Response]: its [ok] flag and what [await response.json()] gives. *)
Record Response : Type := mkResponse {
  ok : bool;
  json : Outcome Payload
}.

Inductive Approach : Type := classical | quantum | both.

Record File : Type := mkFile { file_name : string }.

Inductive RequestBody : Type :=
| SmilesBody (smiles : string)
| FormData (files : File) (approach : Approach).

(** ** Observable effects *)

Inductive UiUpdate : Type :=
| setIsProcessing (b : bool)
| setResults (r : option Payload)
| setIsLoading (b : bool)
| setStructure2D (s : option string)
| setShowVisualization (b : bool)
| setIsAnalyzing (b : bool)
| setSelectedFile (f : option File)
| setShowApproachSelection (b : bool)
| setShowUpload (b : bool).

Inductive Event : Type :=
| localStorage_setItem (key value : string)
| auth_getUser
| http_fetch (url : string) (body : RequestBody)
| call_updatePoints (newPoints : Z)
| toast_error (msg : string)
| toast_success (msg : string)
| toast_info (msg : string)
| window_open
| document_write (html title : string)
| ui (u : UiUpdate).

(** ** The JavaScript runtime

    Built-ins the code calls.  [JSON_parse] is [None] when [JSON.parse]
    throws a [SyntaxError].  The two laws are the ones the code relies on:
    a serialised profile parses back to itself, and it is a truthy string. *)
Class Runtime : Type := {
  JSON_stringify : UserProfile -> string;
  JSON_parse : string -> option UserProfile;
  atob : string -> option string;
  JSON_parse_stringify : forall p, JSON_parse (JSON_stringify p) = Some p;
  JSON_stringify_truthy : forall p, JSON_stringify p <> EmptyString
}.

(** [String(n)] for an integer-valued number. *)
Definition Number_toString (n : Z) : string :=
  NilZero.string_of_int (Z.to_int n).

(** [s.trim()] on ASCII white space (code units 9 to 13 and 32).
    JavaScript's [trim] also strips U+00A0, U+FEFF and the other Unicode
    spaces: on a text made only of those, the guard [!smilesInput.trim()]
    of the code refuses where this one lets the run go on to the profile
    and balance checks. *)
Fixpoint trimStart (s : string) : string :=
  match s with
  | String c s' => if Ascii.is_space c then trimStart s' else s
  | EmptyString => EmptyString
  end.

Definition trim (s : string) : string :=
  String.rev (trimStart (String.rev (trimStart s))).

(** Truthiness of a string: non-empty. *)
Definition truthy (s : string) : bool :=
  match s with
  | EmptyString => false
  | String _ _ => true
  end.

(** [o || dflt] for an optional string. *)
Definition or_else (o : option string) (dflt : string) : string :=
  match o with
  | Some s => if truthy s then s else dflt
  | None => dflt
  end.

(** ** The world: AuthProvider state, localStorage, trace *)

Record World : Type := mkWorld {
  user : option User;
  session : option Session;
  profile : option UserProfile;
  loading : bool;
  localStorage : gmap string string;
  trace : list Event
}.

(** [useState] initial values of [AuthProvider], over a given storage. *)
Definition initial_world (ls : gmap string string) : World :=
  mkWorld None None None true ls [].

(** ** A state-and-exception monad for function bodies *)

Definition M (A : Type) : Type := World -> Outcome A * World.

Definition ret {A} (a : A) : M A := fun w => (Resolved a, w).

Definition throw {A} (e : Exn) : M A := fun w => (Rejected e, w).

Definition bind {A B} (m : M A) (k : A -> M B) : M B :=
  fun w =>
    match m w with
    | (Resolved a, w') => k a w'
    | (Rejected e, w') => (Rejected e, w')
    end.

(** [await p] for a promise whose settlement is known. *)
Definition await {A} (p : Outcome A) : M A := fun w => (p, w).

(** [try { body } catch (error) { handler }]. *)
Definition try_catch {A} (body : M A) (handler : Exn -> M A) : M A :=
  fun w =>
    match body w with
    | (Resolved a, w') => (Resolved a, w')
    | (Rejected e, w') => handler e w'
    end.

(** [try { body } finally { fin }]. *)
Definition try_finally {A} (body : M A) (fin : M unit) : M A :=
  fun w =>
    match body w with
    | (r, w') =>
        match fin w' with
        | (Resolved _, w'') => (r, w'')
        | (Rejected e, w'') => (Rejected e, w'')
        end
    end.

Notation "x <- m ;; k" := (bind m (fun x => k))
  (at level 100, m at next level, right associativity).
Notation "m ;; k" := (bind m (fun _ => k))
  (at level 100, right associativity).

Definition emit (e : Event) : M unit :=
  fun w => (Resolved tt,
            mkWorld (user w) (session w) (profile w) (loading w)
                    (localStorage w) (trace w ++ [e])).

Definition setUser (u : option User) : M unit :=
  fun w => (Resolved tt,
            mkWorld u (session w) (profile w) (loading w)
                    (localStorage w) (trace w)).

Definition setSession (s : option Session) : M unit :=
  fun w => (Resolved tt,
            mkWorld (user w) s (profile w) (loading w)
                    (localStorage w) (trace w)).

Definition setProfile (p : option UserProfile) : M unit :=
  fun w => (Resolved tt,
            mkWorld (user w) (session w) p (loading w)
                    (localStorage w) (trace w)).

Definition setLoading (b : bool) : M unit :=
  fun w => (Resolved tt,
            mkWorld (user w) (session w) (profile w) b
                    (localStorage w) (trace w)).

(** [localStorage.getItem(key)]: [null] is [None]. *)
Definition getItem (key : string) : M (option string) :=
  fun w => (Resolved (localStorage w !! key), w).

(** [localStorage.setItem(key, value)]. *)
Definition setItem (key value : string) : M unit :=
  fun w => (Resolved tt,
            mkWorld (user w) (session w) (profile w) (loading w)
                    (<[key := value]> (localStorage w))
                    (trace w ++ [localStorage_setItem key value])).

(** The template [`user_profile_${userId}`]. *)
Definition storage_key (userId : string) : string :=
  "user_profile_" +:+ userId.

(** [`${x}`] for an optional number ([undefined] prints as such). *)
Definition show_number (o : option Z) : string :=
  match o with
  | Some n => Number_toString n
  | None => "undefined"
  end.

Definition show_approach (a : Approach) : string :=
  match a with
  | classical => "classical"
  | quantum => "quantum"
  | both => "both"
  end.

Definition message (e : Exn) : string :=
  match e with Error m => m end.

Section AuthContext.

Context `{Runtime}.

(** [JSON.parse(s)], throwing on malformed text. *)
Definition JSON_parse_throw (s : string) : M UserProfile :=
  match JSON_parse s with
  | Some p => ret p
  | None => throw (Error "SyntaxError")
  end.

(** ** AuthContext.tsx *)

(** [fetchUserProfile(userId)] (lines 39-79).  [getUser] is the settlement of
    [supabase.auth.getUser()], [now] is [new Date().toISOString()]. *)
Definition fetchUserProfile (userId : string)
    (getUser : Outcome UserResponse) (now : string) : M unit :=
  try_catch
    (savedProfile <- getItem (storage_key userId) ;;
     if truthy (default EmptyString savedProfile) then
       parsedProfile <- JSON_parse_throw (default EmptyString savedProfile) ;;
       setProfile (Some parsedProfile) ;;
       setLoading false
     else
       emit auth_getUser ;;
       userData <- await getUser ;;
       let profile :=
         {| id := userId;
            email := or_else (data_user userData ≫= user_email) EmptyString;
            token_points := 1000;
            created_at := now |} in
       setItem (storage_key userId) (JSON_stringify profile) ;;
       setProfile (Some profile) ;;
       setLoading false)
    (fun error =>
       let fallbackProfile :=
         {| id := userId;
            email := EmptyString;
            token_points := 1000;
            created_at := now |} in
       setItem (storage_key userId) (JSON_stringify fallbackProfile) ;;
       setProfile (Some fallbackProfile) ;;
       setLoading false).

(** The continuation of [supabase.auth.getSession().then(...)] in the mount
    effect (lines 83-91).  There is no [.catch]: a rejected promise skips the
    continuation and the rejection is the result. *)
Definition getInitialSession (getSession : Outcome SessionResponse)
    (getUser : Outcome UserResponse) (now : string) : M unit :=
  r <- await getSession ;;
  let s := data_session r in
  setSession s ;;
  setUser (session_user <$> s) ;;
  match s with
  | Some s' => fetchUserProfile (user_id (session_user s')) getUser now
  | None => setLoading false
  end.

(** The [onAuthStateChange] callback (lines 96-114); the event name is only
    logged. *)
Definition onAuthStateChange (event : string) (s : option Session)
    (getUser : Outcome UserResponse) (now : string) : M unit :=
  setSession s ;;
  setUser (session_user <$> s) ;;
  match s with
  | Some s' => fetchUserProfile (user_id (session_user s')) getUser now
  | None =>
      setProfile None ;;
      setLoading false
  end.

(** [createUserProfile(userId)] (lines 119-149). *)
Definition createUserProfile (userId : string)
    (getUser : Outcome UserResponse) (now : string) : M unit :=
  try_catch
    (emit auth_getUser ;;
     userData <- await getUser ;;
     let newProfile :=
       {| id := userId;
          email := or_else (data_user userData ≫= user_email) EmptyString;
          token_points := 1000;
          created_at := now |} in
     setItem (storage_key userId) (JSON_stringify newProfile) ;;
     setProfile (Some newProfile))
    (fun error =>
       let fallbackProfile :=
         {| id := userId;
            email := EmptyString;
            token_points := 1000;
            created_at := now |} in
       setItem (storage_key userId) (JSON_stringify fallbackProfile) ;;
       setProfile (Some fallbackProfile)).

(** [updatePoints(newPoints)] (lines 183-191).  [profile] is the value the
    closure captured at the render that created it.  The first event records
    the call and its argument. *)
Definition updatePoints (profile : option UserProfile) (newPoints : Z)
    : M unit :=
  emit (call_updatePoints newPoints) ;;
  match profile with
  | Some p =>
      let updatedProfile :=
        {| id := id p;
           email := email p;
           token_points := newPoints;
           created_at := created_at p |} in
      setProfile (Some updatedProfile) ;;
      setItem (storage_key (id p)) (JSON_stringify updatedProfile)
  | None => ret tt
  end.

(** ** Smiles.tsx *)

(** [handleProcessSmiles] (lines 60-112).  [profile] and [smilesInput] are
    the values of the current render; [response] is the settlement of the
    [fetch] promise. *)
Definition handleProcessSmiles (profile : option UserProfile)
    (smilesInput : string) (response : Outcome Response) : M unit :=
  if negb (truthy (trim smilesInput)) then
    emit (toast_error "Please enter a SMILES notation")
  else
    match profile with
    | None => emit (toast_error "Please wait for your profile to load.")
    | Some p =>
        let cost := 7 in
        if (token_points p <? cost)%Z then
          emit (toast_error
            ("Insufficient points for SMILES analysis. You need "
             +:+ Number_toString cost +:+ " points but only have "
             +:+ Number_toString (token_points p) +:+ "."))
        else
          emit (ui (setIsProcessing true)) ;;
          emit (ui (setResults None)) ;;
          try_finally
            (try_catch
               (emit (http_fetch "/api/process-smiles"
                        (SmilesBody (trim smilesInput))) ;;
                response <- await response ;;
                if ok response then
                  result <- await (json response) ;;
                  emit (ui (setResults (Some result))) ;;
                  if success result then
                    let newPoints := (token_points p - cost)%Z in
                    updatePoints profile newPoints ;;
                    emit (toast_success
                      ("Successfully generated "
                       +:+ show_number (total_isomers result)
                       +:+ " isomer(s)! " +:+ Number_toString cost
                       +:+ " points deducted. Remaining: "
                       +:+ Number_toString newPoints))
                  else
                    emit (toast_error
                      (or_else (error result) "Failed to process SMILES"))
                else
                  errorData <- await (json response) ;;
                  emit (toast_error
                    (or_else (detail errorData) "Failed to process SMILES")))
               (fun error =>
                  emit (toast_error
                    "Network error occurred while processing SMILES")))
            (emit (ui (setIsProcessing false)))
    end.

(** ** Structure2DViewer.tsx, component [Molecule3DViewer] *)

(** [generate2DStructure] (lines 219-269). *)
Definition generate2DStructure (profile : option UserProfile)
    (smiles : string) (structure2D : option string)
    (showVisualization : bool) (response : Outcome Response) : M unit :=
  if truthy (default EmptyString structure2D) then
    emit (ui (setShowVisualization (negb showVisualization)))
  else
    match profile with
    | None => emit (toast_error "Please wait for your profile to load.")
    | Some p =>
        let cost := 1 in
        if (token_points p <? cost)%Z then
          emit (toast_error
            ("Insufficient points for 2D visualization. You need "
             +:+ Number_toString cost +:+ " point but only have "
             +:+ Number_toString (token_points p) +:+ "."))
        else
          emit (ui (setIsLoading true)) ;;
          try_finally
            (try_catch
               (emit (http_fetch "/api/generate-2d-structure"
                        (SmilesBody smiles)) ;;
                response <- await response ;;
                if ok response then
                  data <- await (json response) ;;
                  if success data
                     && truthy (default EmptyString (structure_2d data)) then
                    emit (ui (setStructure2D (structure_2d data))) ;;
                    emit (ui (setShowVisualization true)) ;;
                    let newPoints := (token_points p - cost)%Z in
                    updatePoints profile newPoints ;;
                    emit (toast_success
                      ("2D structure generated! " +:+ Number_toString cost
                       +:+ " point deducted. Remaining: "
                       +:+ Number_toString newPoints))
                  else
                    emit (toast_error "Failed to generate structure")
                else
                  emit (toast_error "Failed to generate structure"))
               (fun error => emit (toast_error "Network error occurred")))
            (emit (ui (setIsLoading false)))
    end.

(** [atob(s)], throwing on text that is not base64. *)
Definition atob_throw (s : string) : M string :=
  match atob s with
  | Some d => ret d
  | None => throw (Error "InvalidCharacterError")
  end.

(** [open3DVisualization] (lines 271-322).  [newWindow]
    tells whether [window.open] returned a window. *)
Definition open3DVisualization (profile : option UserProfile)
    (smiles moleculeName : string) (response : Outcome Response)
    (newWindow : bool) : M unit :=
  match profile with
  | None => emit (toast_error "Please wait for your profile to load.")
  | Some p =>
      let cost := 3 in
      if (token_points p <? cost)%Z then
        emit (toast_error
          ("Insufficient points for 3D visualization. You need "
           +:+ Number_toString cost +:+ " points but only have "
           +:+ Number_toString (token_points p) +:+ "."))
      else
        emit (ui (setIsLoading true)) ;;
        try_finally
          (try_catch
             (emit (http_fetch "/api/process-smiles" (SmilesBody smiles)) ;;
              response <- await response ;;
              if ok response then
                data <- await (json response) ;;
                match (if success data then isomers data else None) with
                | Some (mostStable :: _) =>
                    decodedHtml <- atob_throw (visualization mostStable) ;;
                    emit window_open ;;
                    (if newWindow then
                       emit (document_write decodedHtml
                               (moleculeName +:+ " - 3D Structure"))
                     else ret tt) ;;
                    let newPoints := (token_points p - cost)%Z in
                    updatePoints profile newPoints ;;
                    emit (toast_success
                      ("3D visualization opened! " +:+ Number_toString cost
                       +:+ " points deducted. Remaining: "
                       +:+ Number_toString newPoints))
                | _ => emit (toast_error "Failed to generate 3D visualization")
                end
              else
                emit (toast_error "Failed to generate 3D visualization"))
             (fun error => emit (toast_error "Network error occurred")))
          (emit (ui (setIsLoading false)))
  end.

(** ** SignUp.tsx, component [Index] *)

(** The [POINTS_COST] table of [handleApproachSelection]. *)
Definition POINTS_COST (approach : Approach) : Z :=
  match approach with
  | classical => 20
  | quantum => 35
  | both => 50
  end.

(** [handleApproachSelection(approach)] (lines 676-742). *)
Definition handleApproachSelection (profile : option UserProfile)
    (selectedFile : option File) (approach : Approach)
    (response : Outcome Response) : M unit :=
  match selectedFile with
  | None => ret tt
  | Some file =>
      let cost := POINTS_COST approach in
      match profile with
      | None => emit (toast_error "Please wait for your profile to load.")
      | Some p =>
          if (token_points p <? cost)%Z then
            emit (toast_error
              ("Insufficient points for this analysis. You need "
               +:+ Number_toString cost +:+ " points but only have "
               +:+ Number_toString (token_points p) +:+ "."))
          else
            let newPoints := (token_points p - cost)%Z in
            updatePoints profile newPoints ;;
            emit (toast_success
              (Number_toString cost +:+ " points deducted. Remaining: "
               +:+ Number_toString newPoints)) ;;
            emit (ui (setIsAnalyzing true)) ;;
            emit (toast_info
              ("Starting " +:+ show_approach approach +:+ " analysis...")) ;;
            try_finally
              (try_catch
                 (emit (http_fetch "/api/upload-and-process"
                          (FormData file approach)) ;;
                  response <- await response ;;
                  if ok response then
                    result <- await (json response) ;;
                    emit (ui (setResults (Some result))) ;;
                    emit (toast_success
                      (show_approach approach
                       +:+ " analysis completed successfully!")) ;;
                    emit (ui (setSelectedFile None)) ;;
                    emit (ui (setShowApproachSelection false)) ;;
                    emit (ui (setShowUpload false))
                  else
                    errorData <- await (json response) ;;
                    throw (Error
                      (or_else (detail errorData) "Analysis failed")))
                 (fun error =>
                    emit (toast_error
                      ("Analysis failed: " +:+ message error))))
              (emit (ui (setIsAnalyzing false)))
      end
  end.

End AuthContext.

(** ** Running a computation, and reading a trace *)

Definition result {A} (m : M A) (w : World) : Outcome A := fst (m w).
Definition exec {A} (m : M A) (w : World) : World := snd (m w).

(** The events a run from [w] to [w'] appended. *)
Definition new_events (w w' : World) : list Event :=
  drop (length (trace w)) (trace w').

(** The storage writes, ledger calls and backend requests of a trace. *)
Definition writes (t : list Event) : list (string * string) :=
  omap (fun e => match e with
                 | localStorage_setItem k v => Some (k, v)
                 | _ => None
                 end) t.

Definition calls (t : list Event) : list Z :=
  omap (fun e => match e with
                 | call_updatePoints n => Some n
                 | _ => None
                 end) t.

Definition fetches (t : list Event) : list string :=
  omap (fun e => match e with
                 | http_fetch url _ => Some url
                 | _ => None
                 end) t.

Definition provider_calls (t : list Event) : list unit :=
  omap (fun e => match e with
                 | auth_getUser => Some tt
                 | _ => None
                 end) t.

(** The profile persisted for a subject, as the resolver would read it. *)
Definition persisted `{Runtime} (w : World) (userId : string)
    : option UserProfile :=
  localStorage w !! storage_key userId ≫= JSON_parse.

(** ** The paid features *)

(** One invocation of a feature gate with the render values it closes over. *)
Inductive Gate : Type :=
| SmilesIsomers (smilesInput : string)
| View2D (smiles : string) (structure2D : option string)
         (showVisualization : bool)
| View3D (smiles moleculeName : string) (newWindow : bool)
| FileAnalysis (selectedFile : option File) (approach : Approach).

Definition invoke `{Runtime} (g : Gate) (profile : option UserProfile)
    (response : Outcome Response) : M unit :=
  match g with
  | SmilesIsomers smilesInput =>
      handleProcessSmiles profile smilesInput response
  | View2D smiles structure2D showVisualization =>
      generate2DStructure profile smiles structure2D showVisualization
        response
  | View3D smiles moleculeName newWindow =>
      open3DVisualization profile smiles moleculeName response newWindow
  | FileAnalysis selectedFile approach =>
      handleApproachSelection profile selectedFile approach response
  end.

(** The fixed price of each feature. *)
Definition price (g : Gate) : Z :=
  match g with
  | SmilesIsomers _ => 7
  | View2D _ _ _ => 1
  | View3D _ _ _ => 3
  | FileAnalysis _ approach => POINTS_COST approach
  end.

(** The invocation passes the handler's input guard and so asks for the paid
    operation: a non-blank SMILES text, no 2D structure cached yet, a file
    selected. *)
Definition requested (g : Gate) : bool :=
  match g with
  | SmilesIsomers smilesInput => truthy (trim smilesInput)
  | View2D _ structure2D _ => negb (truthy (default EmptyString structure2D))
  | View3D _ _ _ => true
  | FileAnalysis selectedFile _ =>
      match selectedFile with
      | Some _ => true
      | None => false
      end
  end.

(** The balance check every handler makes before going on. *)
Definition affordable (g : Gate) (p : UserProfile) : bool :=
  negb (token_points p <? price g)%Z.

(** The backend route each feature posts to. *)
Definition endpoint (g : Gate) : string :=
  match g with
  | SmilesIsomers _ => "/api/process-smiles"
  | View2D _ _ _ => "/api/generate-2d-structure"
  | View3D _ _ _ => "/api/process-smiles"
  | FileAnalysis _ _ => "/api/upload-and-process"
  end.

(** The features that charge after the backend answered, and the one that
    charges before. *)
Definition charge_after (g : Gate) : bool :=
  match g with
  | FileAnalysis _ _ => false
  | _ => true
  end.

(** The backend answered with an ok status and a JSON body. *)
Definition answered (response : Outcome Response) : option Payload :=
  match response with
  | Resolved r =>
      if ok r then
        match json r with
        | Resolved d => Some d
        | Rejected _ => None
        end
      else None
  | Rejected _ => None
  end.

(** The backend call succeeded: the request resolved with an ok status and a
    body whose [success] flag is set. *)
Definition backend_succeeded (response : Outcome Response) : bool :=
  match answered response with
  | Some d => success d
  | None => false
  end.

(** The answer is one the gate accepts as the requested work: a successful
    body that carries what the handler goes on to use. *)
Definition delivered `{Runtime} (g : Gate) (response : Outcome Response)
    : bool :=
  match answered response with
  | Some d =>
      match g with
      | SmilesIsomers _ => success d
      | View2D _ _ _ =>
          success d && truthy (default EmptyString (structure_2d d))
      | View3D _ _ _ =>
          success d &&
          match isomers d with
          | Some (mostStable :: _) =>
              match atob (visualization mostStable) with
              | Some _ => true
              | None => false
              end
          | _ => false
          end
      | FileAnalysis _ _ => true
      end
  | None => false
  end.

(** The invocation debits the balance: it asks for the paid operation, the
    balance covers the price and, for a feature that charges afterwards, the
    answer was accepted. *)
Definition charged `{Runtime} (g : Gate) (p : UserProfile)
    (response : Outcome Response) : bool :=
  requested g && affordable g p &&
  (negb (charge_after g) || delivered g response).


(** The events before the first backend request, and those after it. *)
Fixpoint until_fetch (t : list Event) : list Event :=
  match t with
  | [] => []
  | http_fetch _ _ :: _ => []
  | e :: t' => e :: until_fetch t'
  end.

Fixpoint after_fetch (t : list Event) : list Event :=
  match t with
  | [] => []
  | http_fetch _ _ :: t' => t'
  | _ :: t' => after_fetch t'
  end.

(** The persistence statement of lines 62, 75, 133, 146 and 188:
    [localStorage.setItem(`user_profile_${s}`, JSON.stringify(P))]. *)
Definition persist `{Runtime} (s : string) (P : UserProfile) : M unit :=
  setItem (storage_key s) (JSON_stringify P).

(** ** Vocabulary of the statements *)

(** The profile [p] with its balance replaced by [n]. *)
Definition with_points (p : UserProfile) (n : Z) : UserProfile :=
  {| id := id p; email := email p; token_points := n;
     created_at := created_at p |}.

(** The profile built on first resolution, from what the provider said. *)
Definition new_profile (userId : string) (userData : UserResponse)
    (now : string) : UserProfile :=
  {| id := userId;
     email := or_else (data_user userData ≫= user_email) EmptyString;
     token_points := 1000;
     created_at := now |}.

Definition fallback_profile (userId now : string) : UserProfile :=
  {| id := userId; email := EmptyString; token_points := 1000;
     created_at := now |}.

(** The world after a profile was created and persisted for [userId]. *)
Definition created `{Runtime} (w : World) (userId : string) (p : UserProfile)
    (evs : list Event) : World :=
  mkWorld (user w) (session w) (Some p) false
    (<[storage_key userId := JSON_stringify p]> (localStorage w))
    (trace w ++ evs ++ [localStorage_setItem (storage_key userId)
                          (JSON_stringify p)]).

(** The provider's answer to the e-mail fetch is a failure: the promise
    rejected, or it resolved with an error result. *)
Definition provider_failed (getUser : Outcome UserResponse) : bool :=
  match getUser with
  | Rejected _ => true
  | Resolved (UserError _) => true
  | Resolved (UserData _) => false
  end.

(** The text of the refusal: it names the price and the balance held. *)
Definition insufficient_balance (what : string) (cost : Z) (unit_ : string)
    (balance : Z) : string :=
  "Insufficient points for " +:+ what +:+ ". You need "
  +:+ Number_toString cost +:+ unit_ +:+ " but only have "
  +:+ Number_toString balance +:+ ".".

(** ** Reachable states *)

Section Reachable.

Context `{Runtime}.

(** The worlds the subsystem can be in, starting from a first load with an
    empty storage.  A page reload resets the React state and keeps the
    storage.  A gate runs with the profile of the current render or of an
    earlier one (its closure may be stale when the call is still in flight
    while the profile changes). *)
Inductive reachable : World -> Prop :=
| reach_first_load :
    reachable (initial_world ∅)
| reach_reload (w : World) :
    reachable w ->
    reachable (mkWorld None None None true (localStorage w) (trace w))
| reach_initial_session (w : World) (getSession : Outcome SessionResponse)
    (getUser : Outcome UserResponse) (now : string) :
    reachable w ->
    reachable (exec (getInitialSession getSession getUser now) w)
| reach_auth_change (w : World) (event : string) (s : option Session)
    (getUser : Outcome UserResponse) (now : string) :
    reachable w ->
    reachable (exec (onAuthStateChange event s getUser now) w)
| reach_gate (w0 w : World) (g : Gate) (response : Outcome Response) :
    reachable w0 ->
    reachable w ->
    reachable (exec (invoke g (profile w0) response) w).

(** Balances held, balances stored and ledger arguments are non-negative. *)
Record ledger_invariant (w : World) : Prop := {
  held_nonneg : forall p, profile w = Some p -> 0 <= token_points p;
  stored_nonneg : forall k v p,
    localStorage w !! k = Some v -> JSON_parse v = Some p ->
    0 <= token_points p;
  calls_nonneg : Forall (fun n => 0 <= n) (calls (trace w))
}.

End Reachable.

(** ** Sample inputs *)

Definition t0 : string := "2024-01-01T00:00:00.000Z".

(** A signed-in world holding (and having persisted) a profile for "u1". *)
Definition world_with `{Runtime} (balance : Z) : World :=
  let p := mkUserProfile "u1" "a@b.com" balance t0 in
  let u := mkUser "u1" (Some "a@b.com") (Some t0) in
  mkWorld (Some u) (Some (mkSession u)) (Some p) false
    (<[storage_key "u1" := JSON_stringify p]> ∅) [].

(** A first load followed by the sign-in of "u1". *)
Definition signed_in_world `{Runtime} : World :=
  let u := mkUser "u1" (Some "a@b.com") (Some t0) in
  exec (onAuthStateChange "SIGNED_IN" (Some (mkSession u))
          (Resolved (UserData (Some u))) t0)
       (initial_world ∅).

Definition ok_response : Outcome Response :=
  Resolved (mkResponse true
              (Resolved (mkPayload true (Some 2) None None None None))).

Definition error_response : Outcome Response :=
  Resolved (mkResponse false
              (Resolved (mkPayload false None None None None
                           (Some "Internal Server Error")))).

(** ** Serial use, and the storage invariant *)

Section Serial.

Context `{Runtime}.

(** One operation of the subsystem in serial use: every gate runs with the
    profile of the current render. *)
Inductive step : World -> World -> Prop :=
| step_reload (w : World) :
    step w (mkWorld None None None true (localStorage w) (trace w))
| step_initial_session (w : World) (getSession : Outcome SessionResponse)
    (getUser : Outcome UserResponse) (now : string) :
    step w (exec (getInitialSession getSession getUser now) w)
| step_auth_change (w : World) (event : string) (s : option Session)
    (getUser : Outcome UserResponse) (now : string) :
    step w (exec (onAuthStateChange event s getUser now) w)
| step_gate (w : World) (g : Gate) (response : Outcome Response) :
    step w (exec (invoke g (profile w) response) w).

(** Every stored text is a serialised profile, every record is filed under
    its own [id], the held profile is the stored one, and no stored balance
    exceeds the starting balance. *)
Record store_invariant (w : World) : Prop := {
  stored_serialised : forall k v,
    localStorage w !! k = Some v -> exists p, v = JSON_stringify p;
  stored_under_id : forall u p, persisted w u = Some p -> id p = u;
  held_is_stored : forall p, profile w = Some p -> persisted w (id p) = Some p;
  stored_at_most_1000 : forall u p,
    persisted w u = Some p -> token_points p <= 1000
}.

End Serial.

(** The busy flag each handler raises around its backend call. *)
Definition busy_flag (g : Gate) (b : bool) : UiUpdate :=
  match g with
  | SmilesIsomers _ => setIsProcessing b
  | View2D _ _ _ => setIsLoading b
  | View3D _ _ _ => setIsLoading b
  | FileAnalysis _ _ => setIsAnalyzing b
  end.

(** ** More of the pages: free viewers, downloads, uploads *)

Section FreeHandlers.

Context `{Runtime}.

(** [openVisualization(htmlContent, title)] of Smiles.tsx (lines 114-126).
    [newWindow] tells whether [window.open] returned a window. *)
Definition openVisualization (htmlContent title : string) (newWindow : bool)
    : M unit :=
  try_catch
    (decodedHtml <- atob_throw htmlContent ;;
     emit window_open ;;
     if newWindow then emit (document_write decodedHtml title) else ret tt)
    (fun error => emit (toast_error "Failed to open visualization")).

End FreeHandlers.

(** [handleFileUpload(file)] of component [Index] (SignUp.tsx, lines
    670-674). *)
Definition handleFileUpload (file : File) : M unit :=
  emit (ui (setSelectedFile (Some file))) ;;
  emit (ui (setShowApproachSelection true)) ;;
  emit (toast_success
          "File uploaded successfully! Choose your analysis approach.").

(** [t] occurs in [s]. *)
Definition occurs (t s : string) : Prop :=
  exists pre post, s = pre +:+ t +:+ post.

(** [s.includes(t)]. *)
Fixpoint includes (s t : string) : bool :=
  String.prefix t s ||
  match s with
  | String _ s' => includes s' t
  | EmptyString => false
  end.

(** [s.toLowerCase()] on ASCII letters; other code units are kept. *)
Definition lower (c : ascii) : ascii :=
  let n := nat_of_ascii c in
  if ((65 <=? n) && (n <=? 90))%nat then ascii_of_nat (n + 32) else c.

Fixpoint toLowerCase (s : string) : string :=
  match s with
  | EmptyString => EmptyString
  | String c s' => String (lower c) (toLowerCase s')
  end.

(** The character class [[a-zA-Z0-9]]. *)
Definition is_alnum (c : ascii) : bool :=
  let n := nat_of_ascii c in
  ((48 <=? n) && (n <=? 57) || (65 <=? n) && (n <=? 90)
   || (97 <=? n) && (n <=? 122))%nat.

(** [s.replace(/[^a-zA-Z0-9]/g, '_')]. *)
Fixpoint replace_non_alnum (s : string) : string :=
  match s with
  | EmptyString => EmptyString
  | String c s' =>
      String (if is_alnum c then c else "_"%char) (replace_non_alnum s')
  end.

(** A character that is safe in a file name: a letter, a digit or an
    underscore. *)
Definition safe_char (c : ascii) : Prop :=
  is_alnum c = true \/ c = "_"%char.

(** [`${x?.replace(/[^a-zA-Z0-9]/g, '_')}`] for an optional string. *)
Definition show_sanitized (o : option string) : string :=
  match o with
  | Some s => replace_non_alnum s
  | None => "undefined"
  end.

(** The [download] attribute set by [downloadResults] of Smiles.tsx (line
    147) when there are successful results, and by [downloadStructure] of
    Structure2DViewer.tsx (line 71) when there is a structure. *)
Definition downloadResults_name (input_smiles : option string) : string :=
  "smiles_isomers_" +:+ show_sanitized input_smiles +:+ ".json".

Definition downloadStructure_name (smiles : option string) : string :=
  "structure_" +:+ show_sanitized smiles +:+ ".png".

(** ** FileUpload *)

(** [s.split(sep)] for a one-character separator. *)
Fixpoint split_on (sep : ascii) (s : string) : list string :=
  match s with
  | EmptyString => [EmptyString]
  | String c s' =>
      if Ascii.eqb c sep then EmptyString :: split_on sep s'
      else match split_on sep s' with
           | x :: xs => String c x :: xs
           | [] => [String c EmptyString]
           end
  end.

(** [c] occurs in [s]. *)
Fixpoint has_char (c : ascii) (s : string) : bool :=
  match s with
  | EmptyString => false
  | String a s' => Ascii.eqb a c || has_char c s'
  end.

(** [l.pop()] on a list of strings, an empty list giving the empty text. *)
Definition pop (l : list string) : string := default EmptyString (last l).

(** [s.replace('.', '')]: the first dot is removed. *)
Fixpoint remove_first_dot (s : string) : string :=
  match s with
  | EmptyString => EmptyString
  | String c s' =>
      if Ascii.eqb c "."%char then s' else String c (remove_first_dot s')
  end.

(** [name.toLowerCase().split('.').pop()], the empty text when undefined. *)
Definition fileExtension (name : string) : string :=
  pop (split_on "."%char (toLowerCase name)).

(** [acceptedTypes.split(',').map(type => type.replace('.', '').trim())]. *)
Definition acceptedExtensions (acceptedTypes : string) : list string :=
  map (fun type => trim (remove_first_dot type))
      (split_on ","%char acceptedTypes).

(** [handleFile(file)] of FileUpload (lines 64-86).  [size] is [file.size]
    in bytes; [acceptedTypes] and [maxSizeMB] are the component's props
    (".mol2" and 10 by default). *)
Definition handleFile (acceptedTypes : string) (maxSizeMB : Z) (file : File)
    (size : Z) : M unit :=
  if (maxSizeMB * (1024 * 1024) <? size)%Z then
    emit (toast_error
            ("File size must be less than " +:+ Number_toString maxSizeMB
             +:+ "MB"))
  else if negb (bool_decide
                  (fileExtension (file_name file)
                   ∈ acceptedExtensions acceptedTypes)) then
    emit (toast_error
            ("Please upload a valid file type: " +:+ acceptedTypes))
  else
    emit (ui (setSelectedFile (Some file))) ;;
    emit (toast_success "File selected successfully").

(** ** MoleculeBank *)

(** The fields of [interface Molecule] that the search reads. *)
Record Molecule : Type := mkMolecule {
  name : string;
  molecule_smiles : string;
  category : string
}.

(** The [moleculeData] table (lines 276-365 of SignUp.tsx). *)
Definition moleculeData : list Molecule :=
  [ mkMolecule "Paracetamol" "CC(=O)Nc1ccc(cc1)O" "Analgesic, Antipyretic";
    mkMolecule "Ibuprofen" "CC(C)Cc1ccc(cc1)C(C)C(=O)O"
      "NSAID, Analgesic, Anti-inflammatory";
    mkMolecule "Aspirin" "CC(=O)Oc1ccccc1C(=O)O"
      "Analgesic, Anti-inflammatory, Antiplatelet";
    mkMolecule "Morphine"
      "C[C@H]1CC[C@]23C4=CC5=C(C=C4O)C(=O)OC[C@]23CC1N5" "Opioid Analgesic";
    mkMolecule "Caffeine" "CN1C=NC2=C1C(=O)N(C(=O)N2C)C"
      "CNS Stimulant, Diuretic";
    mkMolecule "Glucose (D-glucose)"
      "C([C@@H]1[C@H]([C@@H]([C@H](C(O1)O)O)O)O)O"
      "Carbohydrate, Energy Source, Sweetener";
    mkMolecule "Metformin" "CN(C)C(=N)N=C(N)N"
      "Antidiabetic (Type 2 Diabetes)";
    mkMolecule "L-Ascorbic Acid" "C([C@H]([C@@H]1C(=C(C(=O)O1)O)O)O)O"
      "Antioxidant, Vitamin (Vitamin C)";
    mkMolecule "Ethanol" "CCO" "Solvent, Fuel, Antiseptic, Beverage";
    mkMolecule "Glycerol" "C(C(CO)O)O" "Humectant, Solvent, Sweetener";
    mkMolecule "Amoxicillin"
      "CC1([C@@H](N2[C@H](S1)[C@@H](C2=O)NC(=O)[C@@H](C3=CC=C(C=C3)O)N)C(=O)O)C"
      "Antibiotic" ].

(** The predicate of the [filteredMolecules] memo (lines 391-402). *)
Definition matchesSearch (searchTerm : string) (molecule : Molecule) : bool :=
  includes (toLowerCase (name molecule)) (toLowerCase searchTerm)
  || includes (toLowerCase (molecule_smiles molecule))
       (toLowerCase searchTerm)
  || includes (toLowerCase (category molecule)) (toLowerCase searchTerm).

Definition matchesCategory (selectedCategory : string) (molecule : Molecule)
    : bool :=
  String.eqb selectedCategory "All"
  || includes (category molecule) selectedCategory.

Definition filteredMolecules (searchTerm selectedCategory : string)
    : list Molecule :=
  List.filter
    (fun molecule =>
       matchesSearch searchTerm molecule
       && matchesCategory selectedCategory molecule)
    moleculeData.

(** ** The sign-in and sign-up forms

    These handlers touch no [AuthProvider] state: they call the identity
    provider, show toasts and navigate.  Their effects are logged in a list
    of their own. *)

(** A thrown value as a [catch (error: unknown)] sees it: an [Error] with
    its message, or something else. *)
Inductive Thrown : Type :=
| thrown_Error (message : string)
| thrown_value.

Inductive Settled (A : Type) : Type :=
| fulfilled (a : A)
| rejected (t : Thrown).
Arguments fulfilled {A} a.
Arguments rejected {A} t.

(** What [signInWithPassword] and [signUp] resolve to:
    [{ data: { user, session }, error }], the error given by its message. *)
Record AuthResponse : Type := mkAuthResponse {
  response_user : option User;
  response_session : option Session;
  response_error : option string
}.

Inductive PageEffect : Type :=
| preventDefault
| supabase_signInWithPassword (email password : string)
| supabase_signUp (email password emailRedirectTo : string)
| supabase_signOut
| navigate (to : string)
| console_error (msg : string)
| shown (e : Event).

Definition Page (A : Type) : Type :=
  list PageEffect -> Settled A * list PageEffect.

Definition page_ret {A} (a : A) : Page A := fun t => (fulfilled a, t).

Definition page_throw {A} (e : Thrown) : Page A := fun t => (rejected e, t).

Definition page_bind {A B} (m : Page A) (k : A -> Page B) : Page B :=
  fun t =>
    match m t with
    | (fulfilled a, t') => k a t'
    | (rejected e, t') => (rejected e, t')
    end.

Definition page_await {A} (p : Settled A) : Page A := fun t => (p, t).

Definition page_try_catch {A} (body : Page A) (handler : Thrown -> Page A)
    : Page A :=
  fun t =>
    match body t with
    | (fulfilled a, t') => (fulfilled a, t')
    | (rejected e, t') => handler e t'
    end.

Definition page_try_finally {A} (body : Page A) (fin : Page unit) : Page A :=
  fun t =>
    match body t with
    | (r, t') =>
        match fin t' with
        | (fulfilled _, t'') => (r, t'')
        | (rejected e, t'') => (rejected e, t'')
        end
    end.

Definition tell (e : PageEffect) : Page unit :=
  fun t => (fulfilled tt, t ++ [e]).

Declare Scope page_scope.
Delimit Scope page_scope with page.
Notation "x <- m ;; k" := (page_bind m (fun x => k))
  (at level 100, m at next level, right associativity) : page_scope.
Notation "m ;; k" := (page_bind m (fun _ => k))
  (at level 100, right associativity) : page_scope.

(** The effects of a whole run, from an empty log. *)
Definition effects {A} (m : Page A) : list PageEffect := snd (m []).
Definition settled {A} (m : Page A) : Settled A := fst (m []).

(** [error instanceof Error ? error.message : dflt]. *)
Definition message_or (error : Thrown) (dflt : string) : string :=
  match error with
  | thrown_Error m => m
  | thrown_value => dflt
  end.

(** [signIn(email, password)] of AuthContext.tsx (lines 151-157). *)
Definition signIn (email password : string) (r : Settled AuthResponse)
    : Page unit :=
  (tell (supabase_signInWithPassword email password) ;;
   response <- page_await r ;;
   match response_error response with
   | Some m => page_throw (thrown_Error m)
   | None => page_ret tt
   end)%page.

(** [signUp(email, password)] of AuthContext.tsx (lines 159-176); [origin]
    is [window.location.origin]. *)
Definition signUp (origin email password : string) (r : Settled AuthResponse)
    : Page AuthResponse :=
  (tell (supabase_signUp email password (origin +:+ "/")) ;;
   response <- page_await r ;;
   match response_error response with
   | Some m => page_throw (thrown_Error m)
   | None =>
       match response_user response with
       | Some u =>
           if negb (truthy (default EmptyString (email_confirmed_at u))) then
             page_throw (thrown_Error
               "Please check your email and click the confirmation link before signing in.")
           else page_ret response
       | None => page_ret response
       end
   end)%page.

(** [signOut()] of AuthContext.tsx (lines 178-181); the provider resolves
    to [{ error }]. *)
Definition signOut (r : Settled (option string)) : Page unit :=
  (tell supabase_signOut ;;
   error <- page_await r ;;
   match error with
   | Some m => page_throw (thrown_Error m)
   | None => page_ret tt
   end)%page.

(** [handleSignOut] of Smiles.tsx (lines 51-58), also in MoleculeBank,
    Structure2D and Home. *)
Definition handleSignOut (r : Settled (option string)) : Page unit :=
  page_try_catch
    (signOut r ;; tell (navigate "/signin"))%page
    (fun error => tell (console_error "Error signing out:")).

(** [handleSubmit] of SignIn.tsx (lines 20-42). *)
Definition SignIn_handleSubmit (email password : string)
    (r : Settled AuthResponse) : Page unit :=
  (tell preventDefault ;;
   tell (shown (ui (setIsLoading true))) ;;
   page_try_finally
     (page_try_catch
        (signIn email password r ;;
         tell (shown (toast_success "Welcome back! Signed in successfully.")) ;;
         tell (navigate "/"))
        (fun error =>
           let errorMessage := message_or error "Failed to sign in" in
           if includes errorMessage "Email not confirmed" then
             tell (shown (toast_error
               "Please check your email and click the confirmation link before signing in."))
           else if includes errorMessage "Invalid login credentials" then
             tell (shown (toast_error
               "Invalid email or password. Please check your credentials or sign up if you don't have an account."))
           else tell (shown (toast_error errorMessage))))
     (tell (shown (ui (setIsLoading false)))))%page.

(** [handleSubmit] of SignUp.tsx (lines 22-58).  [String.length] counts the
    code units of the password. *)
Definition SignUp_handleSubmit (origin email password confirmPassword : string)
    (r : Settled AuthResponse) : Page unit :=
  (tell preventDefault ;;
   if negb (String.eqb password confirmPassword) then
     tell (shown (toast_error "Passwords do not match"))
   else if (String.length password <? 6)%nat then
     tell (shown (toast_error "Password must be at least 6 characters long"))
   else
     tell (shown (ui (setIsLoading true))) ;;
     page_try_finally
       (page_try_catch
          (result <- signUp origin email password r ;;
           match response_user result, response_session result with
           | Some _, None =>
               tell (shown (toast_success
                 "Account created! Please check your email and click the confirmation link to complete registration."))
           | Some _, Some _ =>
               tell (shown (toast_success
                 "Account created and signed in successfully!")) ;;
               tell (navigate "/")
           | None, _ =>
               tell (shown (toast_success "Account created successfully!")) ;;
               tell (navigate "/signin")
           end)
          (fun error =>
             let errorMessage := message_or error "Failed to create account" in
             tell (shown (toast_error errorMessage))))
       (tell (shown (ui (setIsLoading false)))))%page.

(** The user returned by the provider has confirmed their e-mail. *)
Definition confirmed (u : User) : bool :=
  truthy (default EmptyString (email_confirmed_at u)).

(** ** A reference runtime

    A concrete model of the runtime interface, with a framed text format in
    place of JSON and a base64 check that leaves the text undecoded.  It
    shows the interface laws are satisfiable and lets the development be
    evaluated on concrete inputs. *)
Module ReferenceRuntime.

Fixpoint put_string (s rest : string) : string :=
  match s with
  | EmptyString => String "." rest
  | String c s' => String "+" (String c (put_string s' rest))
  end.

Fixpoint get_string (s : string) : option (string * string) :=
  match s with
  | String "." rest => Some (EmptyString, rest)
  | String "+" (String c s') =>
      match get_string s' with
      | Some (x, rest) => Some (String c x, rest)
      | None => None
      end
  | _ => None
  end.

Definition Number_parse (s : string) : option Z :=
  option_map Z.of_int (NilZero.int_of_string s).

Definition stringify (p : UserProfile) : string :=
  put_string (id p)
    (put_string (email p)
       (put_string (Number_toString (token_points p))
          (put_string (created_at p) EmptyString))).

Definition parse (s : string) : option UserProfile :=
  '(i, r1) ← get_string s;
  '(e, r2) ← get_string r1;
  '(n, r3) ← get_string r2;
  '(c, r4) ← get_string r3;
  z ← Number_parse n;
  if truthy r4 then None else Some (mkUserProfile i e z c).

Definition is_base64 (c : ascii) : bool :=
  let n := nat_of_ascii c in
  ((65 <=? n) && (n <=? 90) || (97 <=? n) && (n <=? 122)
   || (48 <=? n) && (n <=? 57) || (n =? 43) || (n =? 47) || (n =? 61))%nat.

Definition decode (s : string) : option string :=
  if forallb is_base64 (list_ascii_of_string s) then Some s else None.

Lemma get_put_string (s rest : string) :
  get_string (put_string s rest) = Some (s, rest).
Proof.
  induction s as [|c s IH]; simpl; [reflexivity|].
  rewrite IH.
  destruct c as [[] [] [] [] [] [] [] []]; reflexivity.
Qed.

Lemma Number_parse_toString (z : Z) :
  Number_parse (Number_toString z) = Some z.
Proof.
  unfold Number_parse, Number_toString.
  rewrite NilZero.isi.
  - simpl. f_equal. apply DecimalZ.of_to.
  - destruct z; simpl; try discriminate.
    intros [= E]. revert E. apply Unsigned.to_uint_nonnil.
  - destruct z; simpl; try discriminate.
    intros [= E]. revert E. apply Unsigned.to_uint_nonnil.
Qed.

Lemma parse_stringify (p : UserProfile) : parse (stringify p) = Some p.
Proof.
  destruct p as [i e z c]. unfold parse, stringify.
  cbv [id email token_points created_at].
  rewrite get_put_string; cbv [mbind option_bind].
  rewrite get_put_string.
  rewrite get_put_string.
  rewrite get_put_string.
  rewrite Number_parse_toString; reflexivity.
Qed.

Lemma stringify_truthy (p : UserProfile) : stringify p <> EmptyString.
Proof. destruct p as [[|? ?] ? ? ?]; discriminate. Qed.

Definition runtime : Runtime :=
  {| JSON_stringify := stringify;
     JSON_parse := parse;
     atob := decode;
     JSON_parse_stringify := parse_stringify;
     JSON_stringify_truthy := stringify_truthy |}.

End ReferenceRuntime.

(** ** Proof support *)

(** Unfolds the monad and the state accessors on a world given by its
    fields. *)
Ltac run :=
  cbv [exec result new_events persisted persist
       bind ret throw await try_catch try_finally emit
       setUser setSession setProfile setLoading getItem setItem
       JSON_parse_throw atob_throw
       user session profile loading localStorage trace fst snd].

Lemma new_events_app (t l : list Event) : drop (length t) (t ++ l) = l.
Proof. apply drop_app_length. Qed.

Lemma writes_app (t l : list Event) : writes (t ++ l) = writes t ++ writes l.
Proof. apply omap_app. Qed.

Lemma calls_app (t l : list Event) : calls (t ++ l) = calls t ++ calls l.
Proof. apply omap_app. Qed.

Lemma fetches_app (t l : list Event) :
  fetches (t ++ l) = fetches t ++ fetches l.
Proof. apply omap_app. Qed.

Lemma storage_key_inj (a b : string) : storage_key a = storage_key b -> a = b.
Proof. unfold storage_key. intros E. by simplify_eq/=. Qed.

(** ** The ledger mutator *)

Section Ledger.

Context `{Runtime}.

(** What [updatePoints] does with a held profile, as one equation. *)
Lemma updatePoints_Some (p : UserProfile) (n : Z) (w : World) :
  updatePoints (Some p) n w =
  (Resolved tt,
   mkWorld (user w) (session w)
     (Some (mkUserProfile (id p) (email p) n (created_at p)))
     (loading w)
     (<[storage_key (id p) :=
          JSON_stringify (mkUserProfile (id p) (email p) n (created_at p))]>
        (localStorage w))
     (trace w ++
        [call_updatePoints n;
         localStorage_setItem (storage_key (id p))
           (JSON_stringify
              (mkUserProfile (id p) (email p) n (created_at p)))])).
Proof.
  destruct w as [u s q l ls t]. unfold updatePoints. run.
  by rewrite <- app_assoc.
Qed.

Lemma updatePoints_None (n : Z) (w : World) :
  updatePoints None n w =
  (Resolved tt,
   mkWorld (user w) (session w) (profile w) (loading w) (localStorage w)
     (trace w ++ [call_updatePoints n])).
Proof. destruct w as [u s q l ls t]. reflexivity. Qed.

(** C10. Frame of the ledger mutator: with a held profile [p],
    [updatePoints n] makes the held profile [p] with its balance replaced by
    [n] (same [id], [email] and [created_at]), persists exactly that profile
    under the subject's key with one storage write, and leaves every other
    stored record, the user, the session and the loading flag alone; with no
    held profile it changes no state and writes nothing to storage. *)
Theorem updatePoints_frame (n : Z) (w : World) :
  (forall p : UserProfile,
     let w' := exec (updatePoints (Some p) n) w in
     exists p',
       profile w' = Some p' /\
       id p' = id p /\ email p' = email p /\ created_at p' = created_at p /\
       token_points p' = n /\
       persisted w' (id p) = Some p' /\
       writes (new_events w w') = [(storage_key (id p), JSON_stringify p')] /\
       (forall k, k <> storage_key (id p) ->
                  localStorage w' !! k = localStorage w !! k) /\
       user w' = user w /\ session w' = session w /\
       loading w' = loading w) /\
  (let w' := exec (updatePoints None n) w in
   result (updatePoints None n) w = Resolved tt /\
   user w' = user w /\ session w' = session w /\ profile w' = profile w /\
   loading w' = loading w /\ localStorage w' = localStorage w /\
   writes (new_events w w') = []).
Proof.
  split.
  - intros p w'. subst w'. unfold exec. rewrite updatePoints_Some.
    eexists. cbn [snd profile]. split; [reflexivity|].
    cbn [id email created_at token_points].
    repeat split.
    + unfold persisted. cbn [localStorage].
      rewrite lookup_insert_eq. cbn. apply JSON_parse_stringify.
    + unfold new_events. cbn [trace]. by rewrite new_events_app.
    + intros k Hk. cbn [localStorage]. by rewrite lookup_insert_ne.
  - unfold exec, result. rewrite updatePoints_None. cbn [fst snd].
    repeat split. unfold new_events. cbn [trace].
    by rewrite new_events_app.
Qed.

End Ledger.

(** ** The profile resolver *)

Section Resolver.

Context `{Runtime}.

Lemma fetchUserProfile_saved (userId : string) (getUser : Outcome UserResponse)
    (now saved : string) (p : UserProfile) (w : World) :
  localStorage w !! storage_key userId = Some saved ->
  truthy saved = true ->
  JSON_parse saved = Some p ->
  fetchUserProfile userId getUser now w =
  (Resolved tt,
   mkWorld (user w) (session w) (Some p) false (localStorage w) (trace w)).
Proof.
  intros Hget Htr Hp. destruct w as [u s q l ls t]. cbn in Hget.
  unfold fetchUserProfile. run. rewrite Hget. cbn [from_option Datatypes.id].
  rewrite Htr, Hp. reflexivity.
Qed.

Lemma fetchUserProfile_corrupt (userId : string)
    (getUser : Outcome UserResponse) (now saved : string) (w : World) :
  localStorage w !! storage_key userId = Some saved ->
  truthy saved = true ->
  JSON_parse saved = None ->
  fetchUserProfile userId getUser now w =
  (Resolved tt, created w userId (fallback_profile userId now) []).
Proof.
  intros Hget Htr Hp. destruct w as [u s q l ls t]. cbn in Hget.
  unfold fetchUserProfile. run. rewrite Hget. cbn [from_option Datatypes.id].
  rewrite Htr, Hp. reflexivity.
Qed.

Lemma fetchUserProfile_fresh (userId : string) (userData : UserResponse)
    (now : string) (w : World) :
  truthy (default EmptyString (localStorage w !! storage_key userId))
    = false ->
  fetchUserProfile userId (Resolved userData) now w =
  (Resolved tt,
   created w userId (new_profile userId userData now) [auth_getUser]).
Proof.
  intros Hget. destruct w as [u s q l ls t]. cbn in Hget.
  unfold fetchUserProfile. run. rewrite Hget.
  unfold created, new_profile. cbn. by rewrite <- app_assoc.
Qed.

Lemma fetchUserProfile_fallback (userId : string) (e : Exn)
    (now : string) (w : World) :
  truthy (default EmptyString (localStorage w !! storage_key userId))
    = false ->
  fetchUserProfile userId (Rejected e) now w =
  (Resolved tt,
   created w userId (fallback_profile userId now) [auth_getUser]).
Proof.
  intros Hget. destruct w as [u s q l ls t]. cbn in Hget.
  unfold fetchUserProfile. run. rewrite Hget.
  unfold created, fallback_profile. cbn. by rewrite <- app_assoc.
Qed.

(** Every run of the resolver is one of the four above. *)
Lemma fetchUserProfile_cases (userId : string)
    (getUser : Outcome UserResponse) (now : string) (w : World) :
  (exists p, persisted w userId = Some p /\
     fetchUserProfile userId getUser now w =
     (Resolved tt,
      mkWorld (user w) (session w) (Some p) false (localStorage w)
        (trace w))) \/
  (exists p evs,
     token_points p = 1000 /\ id p = userId /\ created_at p = now /\
     calls evs = [] /\ writes evs = [] /\
     fetchUserProfile userId getUser now w =
     (Resolved tt, created w userId p evs)).
Proof.
  assert (Hnew : truthy (default EmptyString
                           (localStorage w !! storage_key userId)) = false ->
    exists p evs,
      token_points p = 1000 /\ id p = userId /\ created_at p = now /\
      calls evs = [] /\ writes evs = [] /\
      fetchUserProfile userId getUser now w =
      (Resolved tt, created w userId p evs)).
  { intros Hf. destruct getUser as [userData|e].
    - exists (new_profile userId userData now), [auth_getUser].
      repeat split. by apply fetchUserProfile_fresh.
    - exists (fallback_profile userId now), [auth_getUser].
      repeat split. by apply fetchUserProfile_fallback. }
  destruct (localStorage w !! storage_key userId) as [saved|] eqn:Hget.
  - destruct (truthy saved) eqn:Htr.
    + destruct (JSON_parse saved) as [p|] eqn:Hp.
      * left. exists p. split.
        { unfold persisted. rewrite Hget. exact Hp. }
        eapply fetchUserProfile_saved; eauto.
      * right. exists (fallback_profile userId now), [].
        repeat split. eapply fetchUserProfile_corrupt; eauto.
    + right. apply Hnew. exact Htr.
  - right. by apply Hnew.
Qed.

Lemma created_persisted (w : World) (userId : string) (p : UserProfile)
    (evs : list Event) :
  persisted (created w userId p evs) userId = Some p.
Proof.
  unfold persisted, created. cbn [localStorage].
  rewrite lookup_insert_eq. cbn. apply JSON_parse_stringify.
Qed.

(** C7. Round trip: after a profile [P] is persisted under subject [s],
    resolving [s] completes without exception, holds a profile equal to [P],
    leaves the storage as it was and appends no event at all to the trace,
    so it issues no call to the identity provider, whatever the provider
    would have answered. *)
Theorem resolve_after_persist (w : World) (s : string) (P : UserProfile)
    (getUser : Outcome UserResponse) (now : string) :
  let w1 := exec (persist s P) w in
  let w2 := exec (fetchUserProfile s getUser now) w1 in
  result (fetchUserProfile s getUser now) w1 = Resolved tt /\
  profile w2 = Some P /\
  localStorage w2 = localStorage w1 /\
  new_events w1 w2 = [] /\
  provider_calls (new_events w1 w2) = [].
Proof.
  intros w1 w2. subst w2. unfold exec, result.
  assert (Hs : localStorage w1 !! storage_key s = Some (JSON_stringify P)).
  { subst w1. destruct w. run. apply lookup_insert_eq. }
  rewrite (fetchUserProfile_saved s getUser now _ P w1 Hs).
  - cbn [fst snd profile localStorage]. unfold new_events. cbn [trace].
    rewrite drop_all. auto.
  - pose proof (JSON_stringify_truthy P).
    by destruct (JSON_stringify P).
  - apply JSON_parse_stringify.
Qed.

(** C8. Every profile the resolver creates for a non-empty subject
    identifier, on whatever path (nothing stored, a failing provider, an
    unreadable stored record), is written under that subject's key, is the
    profile held afterwards, has an [id] equal to the identifier (hence
    non-empty) and has balance exactly 1000.  On a first resolution, with
    nothing persisted, a profile is created and persisted; when the provider
    reports a user with e-mail [e] it is
    [{id: userId, email: e, token_points: 1000}] with the creation time read
    from the clock. *)
Theorem first_resolution_creates (w : World) (userId : string)
    (getUser : Outcome UserResponse) (now : string) :
  userId <> EmptyString ->
  let w' := exec (fetchUserProfile userId getUser now) w in
  (forall k v, (k, v) ∈ writes (new_events w w') ->
     exists p,
       k = storage_key userId /\ v = JSON_stringify p /\
       profile w' = Some p /\ persisted w' userId = Some p /\
       id p = userId /\ id p <> EmptyString /\ token_points p = 1000) /\
  (localStorage w !! storage_key userId = None ->
   exists p,
     profile w' = Some p /\ persisted w' userId = Some p /\
     writes (new_events w w') = [(storage_key userId, JSON_stringify p)] /\
     id p = userId /\ id p <> EmptyString /\ token_points p = 1000 /\
     created_at p = now /\
     forall u e, getUser = Resolved (UserData (Some u)) ->
                 user_email u = Some e ->
                 p = {| id := userId; email := e; token_points := 1000;
                        created_at := now |}).
Proof.
  intros Hne w'. subst w'. unfold exec. split.
  - intros k v.
    destruct (fetchUserProfile_cases userId getUser now w)
      as [(p & _ & ->)|(p & evs & Hp & Hid & _ & _ & Hevs & ->)]; cbn [snd].
    + unfold new_events. cbn [trace]. rewrite drop_all. cbn.
      by intros ?%elem_of_nil.
    + unfold new_events, created. cbn [trace].
      rewrite new_events_app, writes_app, Hevs. cbn.
      intros [= -> ->]%list_elem_of_singleton.
      exists p. rewrite Hid. fold (created w userId p evs).
      by rewrite created_persisted.
  - intros Hget.
    assert (Hf : truthy (default EmptyString
                           (localStorage w !! storage_key userId)) = false)
      by (by rewrite Hget).
    destruct getUser as [userData|e].
    + rewrite fetchUserProfile_fresh by exact Hf. cbn [snd].
      exists (new_profile userId userData now).
      rewrite created_persisted. unfold new_events, created at 2.
      cbn [trace]. rewrite new_events_app.
      repeat split; try done.
      intros u e [= ->] He. unfold new_profile. cbn. rewrite He. cbn.
      by destruct e.
    + rewrite fetchUserProfile_fallback by exact Hf. cbn [snd].
      exists (fallback_profile userId now).
      rewrite created_persisted. unfold new_events, created at 2.
      cbn [trace]. rewrite new_events_app.
      repeat split; try done.
Qed.

(** C6. Resolution never fails: for a subject with no persisted profile,
    every run of the resolver completes without exception and ends with a
    profile held; and when the provider's e-mail fetch fails (the promise
    rejects, or it resolves with an error result), the resolver holds and
    persists, with one storage write, the profile with that subject
    identifier, an empty e-mail and balance 1000. *)
Theorem resolve_provider_failure (w : World) (userId : string)
    (getUser : Outcome UserResponse) (now : string) :
  localStorage w !! storage_key userId = None ->
  let w' := exec (fetchUserProfile userId getUser now) w in
  result (fetchUserProfile userId getUser now) w = Resolved tt /\
  is_Some (profile w') /\
  (provider_failed getUser = true ->
   let p := {| id := userId; email := EmptyString; token_points := 1000;
               created_at := now |} in
   profile w' = Some p /\ persisted w' userId = Some p /\
   loading w' = false /\
   writes (new_events w w') = [(storage_key userId, JSON_stringify p)]).
Proof.
  intros Hget w'. subst w'. unfold exec, result.
  assert (Hf : truthy (default EmptyString
                         (localStorage w !! storage_key userId)) = false)
    by (by rewrite Hget).
  destruct getUser as [userData|e].
  - rewrite fetchUserProfile_fresh by exact Hf. cbn [fst snd].
    split; [done|]. split; [by eexists|].
    destruct userData as [u|err]; [discriminate|]. intros _.
    change (new_profile userId (UserError err) now)
      with (fallback_profile userId now).
    rewrite created_persisted. repeat split.
    unfold new_events, created. cbn [trace].
    by rewrite new_events_app.
  - rewrite fetchUserProfile_fallback by exact Hf. cbn [fst snd].
    split; [done|]. split; [by eexists|]. intros _.
    rewrite created_persisted. repeat split.
    unfold new_events, created. cbn [trace].
    by rewrite new_events_app.
Qed.

End Resolver.

(** ** The session observer *)

Section Observer.

Context `{Runtime}.

Lemma getInitialSession_no_session (r : SessionResponse)
    (getUser : Outcome UserResponse) (now : string) (w : World) :
  data_session r = None ->
  getInitialSession (Resolved r) getUser now w =
  (Resolved tt,
   mkWorld None None (profile w) false (localStorage w) (trace w)).
Proof.
  intros Hr. destruct w as [u s q l ls t].
  unfold getInitialSession. run. rewrite Hr. reflexivity.
Qed.

Lemma getInitialSession_session (r : SessionResponse) (s : Session)
    (getUser : Outcome UserResponse) (now : string) (w : World) :
  data_session r = Some s ->
  getInitialSession (Resolved r) getUser now w =
  fetchUserProfile (user_id (session_user s)) getUser now
    (mkWorld (Some (session_user s)) (Some s) (profile w) (loading w)
       (localStorage w) (trace w)).
Proof.
  intros Hr. destruct w as [u s0 q l ls t].
  unfold getInitialSession. run. rewrite Hr. reflexivity.
Qed.

Lemma getInitialSession_rejected (e : Exn) (getUser : Outcome UserResponse)
    (now : string) (w : World) :
  getInitialSession (Rejected e) getUser now w = (Rejected e, w).
Proof. reflexivity. Qed.

Lemma fetchUserProfile_result (userId : string)
    (getUser : Outcome UserResponse) (now : string) (w : World) :
  result (fetchUserProfile userId getUser now) w = Resolved tt.
Proof.
  unfold result.
  destruct (fetchUserProfile_cases userId getUser now w)
    as [(p & _ & ->)|(p & evs & _ & _ & _ & _ & _ & ->)]; reflexivity.
Qed.

Lemma onAuthStateChange_result (event : string) (s : option Session)
    (getUser : Outcome UserResponse) (now : string) (w : World) :
  result (onAuthStateChange event s getUser now) w = Resolved tt.
Proof.
  destruct w as [u s0 q l ls t], s as [s|]; [|reflexivity].
  apply (fetchUserProfile_result (user_id (session_user s)) getUser now
           (mkWorld (Some (session_user s)) (Some s) q l ls t)).
Qed.

(** C9, as the code has it. For every resolved outcome of the initial
    session fetch the continuation completes without exception, and so does
    the session-change callback on every event; a provider error reported in
    the fetch result (which carries no session) is handled exactly as an
    answer with no session: the subsystem ends with no session and no user,
    the loading flag resolved to false, and the held profile, the storage
    and the trace untouched. *)
Theorem initial_session_error_result (r : SessionResponse) (err : string)
    (getUser : Outcome UserResponse) (now : string) (w : World) :
  result (getInitialSession (Resolved r) getUser now) w = Resolved tt /\
  (forall event s,
     result (onAuthStateChange event s getUser now) w = Resolved tt) /\
  getInitialSession (Resolved (SessionError err)) getUser now w =
    getInitialSession (Resolved (SessionData None)) getUser now w /\
  getInitialSession (Resolved (SessionError err)) getUser now w =
    (Resolved tt,
     mkWorld None None (profile w) false (localStorage w) (trace w)).
Proof.
  split; [|split; [|split]].
  - destruct (data_session r) as [s|] eqn:Hr.
    + unfold result. rewrite (getInitialSession_session r s) by exact Hr.
      apply fetchUserProfile_result.
    + unfold result. by rewrite getInitialSession_no_session.
  - intros event s. apply onAuthStateChange_result.
  - by rewrite !getInitialSession_no_session.
  - by rewrite getInitialSession_no_session.
Qed.

End Observer.

(** ** The feature gates *)

Section Gates.

Context `{Runtime}.

Ltac gate_run :=
  cbv [invoke handleProcessSmiles generate2DStructure open3DVisualization
       handleApproachSelection updatePoints
       charged requested affordable price delivered answered charge_after
       endpoint POINTS_COST with_points
       ok json success total_isomers isomers structure_2d error detail
       id email token_points created_at
       negb andb orb];
  run.

Ltac is_atom b :=
  lazymatch b with
  | context [if _ then _ else _] => fail
  | context [match _ with _ => _ end] => fail
  | _ => idtac
  end.

Ltac gate_branch :=
  match goal with
  | |- context [if ?b then _ else _] => is_atom b; destruct b eqn:?
  | |- context [match ?x with _ => _ end] => is_atom x; destruct x eqn:?
  end; gate_run.

Ltac gate_facts :=
  rewrite <- ?app_assoc; rewrite ?new_events_app, ?drop_all, ?app_nil_r;
  repeat split; try reflexivity; try discriminate.

(** Every invocation of a feature gate follows one protocol: it completes
    without exception, touches neither user, session nor loading flag, posts
    to the backend exactly when the request is well formed and affordable,
    and either debits the price once (new held profile, one ledger call, one
    storage write) or leaves profile and storage alone.  A feature that
    charges afterwards has no ledger call or write before its request; the
    one that charges before has none after it. *)
Lemma invoke_protocol (g : Gate) (p : UserProfile)
    (response : Outcome Response) (w : World) :
  let w' := exec (invoke g (Some p) response) w in
  let evs := new_events w w' in
  let n := token_points p - price g in
  result (invoke g (Some p) response) w = Resolved tt /\
  user w' = user w /\ session w' = session w /\ loading w' = loading w /\
  trace w' = trace w ++ evs /\
  fetches evs = (if requested g && affordable g p then [endpoint g] else []) /\
  if charged g p response then
    profile w' = Some (with_points p n) /\
    localStorage w' =
      <[storage_key (id p) := JSON_stringify (with_points p n)]>
        (localStorage w) /\
    calls evs = [n] /\
    writes evs = [(storage_key (id p), JSON_stringify (with_points p n))] /\
    if charge_after g
    then calls (until_fetch evs) = [] /\ writes (until_fetch evs) = []
    else calls (after_fetch evs) = [] /\ writes (after_fetch evs) = []
  else
    profile w' = profile w /\ localStorage w' = localStorage w /\
    calls evs = [] /\ writes evs = [].
Proof.
  destruct w as [u s q l ls t], p as [pid pem ptp pca].
  destruct response as [[okb [[sc ti iso s2d er de]|e]]|e],
    g as [si|sm sd sv|sm mn nw|sf ap];
    gate_run; repeat gate_branch; gate_facts.
Qed.

(** Without a resolved profile every gate refuses, or does nothing paid:
    no request, no ledger call, no write, no state change. *)
Lemma invoke_no_profile (g : Gate) (response : Outcome Response) (w : World) :
  let w' := exec (invoke g None response) w in
  let evs := new_events w w' in
  result (invoke g None response) w = Resolved tt /\
  user w' = user w /\ session w' = session w /\ loading w' = loading w /\
  profile w' = profile w /\ localStorage w' = localStorage w /\
  trace w' = trace w ++ evs /\
  fetches evs = [] /\ calls evs = [] /\ writes evs = [].
Proof.
  destruct w as [u s q l ls t], g as [si|sm sd sv|sm mn nw|sf ap];
    gate_run; repeat gate_branch; gate_facts.
Qed.

Lemma invoke_insufficient (g : Gate) (p : UserProfile)
    (response : Outcome Response) (w : World) :
  requested g = true ->
  affordable g p = false ->
  exists what unit_,
    invoke g (Some p) response w =
    emit (toast_error
            (insufficient_balance what (price g) unit_ (token_points p))) w.
Proof.
  destruct w as [u s q l ls t], p as [pid pem ptp pca].
  destruct g as [si|sm sd sv|sm mn nw|sf ap]; gate_run; intros Hreq Haff.
  - exists "SMILES analysis", " points".
    destruct (truthy (trim si)); [|discriminate].
    destruct (ptp <? 7)%Z; [|discriminate]. reflexivity.
  - exists "2D visualization", " point".
    destruct (truthy (default EmptyString sd)); [discriminate|].
    destruct (ptp <? 1)%Z; [|discriminate]. reflexivity.
  - exists "3D visualization", " points".
    destruct (ptp <? 3)%Z; [|discriminate]. reflexivity.
  - exists "this analysis", " points".
    destruct sf; [|discriminate]. fold (POINTS_COST ap) in *.
    destruct (ptp <? POINTS_COST ap)%Z; [|discriminate]. reflexivity.
Qed.

Lemma affordable_true (g : Gate) (p : UserProfile) :
  affordable g p = true <-> price g <= token_points p.
Proof.
  unfold affordable. destruct (Z.ltb_spec (token_points p) (price g));
    cbn; split; intros; try done; lia.
Qed.

Lemma affordable_false (g : Gate) (p : UserProfile) :
  affordable g p = false <-> token_points p < price g.
Proof.
  unfold affordable. destruct (Z.ltb_spec (token_points p) (price g));
    cbn; split; intros; try done; lia.
Qed.

Lemma delivered_backend_succeeded (g : Gate) (response : Outcome Response) :
  charge_after g = true ->
  delivered g response = true -> backend_succeeded response = true.
Proof.
  unfold delivered, backend_succeeded.
  destruct (answered response) as [d|]; [|done].
  destruct g; cbn; try done; by destruct (success d).
Qed.

Lemma calls_split (t : list Event) :
  calls t = calls (until_fetch t) ++ calls (after_fetch t).
Proof.
  induction t as [|e t IH]; [done|].
  destruct e; cbn; try done; f_equal; done.
Qed.

Lemma writes_split (t : list Event) :
  writes t = writes (until_fetch t) ++ writes (after_fetch t).
Proof.
  induction t as [|e t IH]; [done|].
  destruct e; cbn; try done; f_equal; done.
Qed.

End Gates.

(** ** Properties of the feature gates *)

Section GateProperties.

Context `{Runtime}.

Lemma persisted_insert (w w' : World) (p p' : UserProfile) :
  localStorage w' =
    <[storage_key (id p) := JSON_stringify p']> (localStorage w) ->
  persisted w' (id p) = Some p'.
Proof.
  intros E. unfold persisted. rewrite E, lookup_insert_eq. cbn.
  apply JSON_parse_stringify.
Qed.




(** C2. For a profile whose balance is below the price of a paid feature,
    the gate posts nothing to the backend, does not call the ledger mutator,
    writes nothing to storage and leaves the held profile and the storage
    unchanged; and when the feature is asked for, all the gate does is show
    the insufficient-balance message naming the price and the balance. *)
Theorem insufficient_balance_refused (g : Gate) (p : UserProfile)
    (response : Outcome Response) (w : World) :
  token_points p < price g ->
  let w' := exec (invoke g (Some p) response) w in
  let evs := new_events w w' in
  fetches evs = [] /\ calls evs = [] /\ writes evs = [] /\
  profile w' = profile w /\ localStorage w' = localStorage w /\
  (requested g = true ->
   exists what unit_,
     invoke g (Some p) response w =
     emit (toast_error
             (insufficient_balance what (price g) unit_ (token_points p))) w).
Proof.
  intros Hlt w' evs. subst evs w'.
  apply affordable_false in Hlt.
  destruct (invoke_protocol g p response w)
    as (_ & _ & _ & _ & _ & Hf & Hc).
  unfold charged in Hc. rewrite Hlt, andb_false_r in Hf, Hc.
  cbn [andb] in Hc. destruct Hc as (Hp & Hls & Hcalls & Hw).
  repeat split; try assumption.
  intros Hreq. by apply invoke_insufficient.
Qed.

Lemma no_debit_before_fetch (evs : list Event) :
  calls evs = [] -> writes evs = [] ->
  calls (until_fetch evs) = [] /\ writes (until_fetch evs) = [].
Proof.
  intros Hcalls Hw.
  pose proof (calls_split evs) as Hcs. pose proof (writes_split evs) as Hws.
  rewrite Hcalls in Hcs. rewrite Hw in Hws. symmetry in Hcs, Hws.
  apply app_eq_nil in Hcs as [Hcs _]. apply app_eq_nil in Hws as [Hws _].
  done.
Qed.

(** C4. For the features that charge afterwards (SMILES isomer generation,
    2D and 3D visualization), with or without a held profile: when the
    backend call fails, answers with a non-ok status or answers with an
    unsuccessful result, the held profile and the storage are unchanged and
    there is no ledger call and no write; in every run no ledger call or
    write precedes the backend request; and a run that does call the ledger
    mutator had a successful backend response to exactly one request. *)
Theorem charge_after_success_only (g : Gate) (held : option UserProfile)
    (response : Outcome Response) (w : World) :
  charge_after g = true ->
  let w' := exec (invoke g held response) w in
  let evs := new_events w w' in
  (backend_succeeded response = false ->
   profile w' = profile w /\ localStorage w' = localStorage w /\
   calls evs = [] /\ writes evs = []) /\
  calls (until_fetch evs) = [] /\ writes (until_fetch evs) = [] /\
  (calls evs <> [] ->
   backend_succeeded response = true /\ fetches evs = [endpoint g]).
Proof.
  intros Hafter w' evs. subst evs w'.
  assert (Hidle : forall w',
    profile w' = profile w /\ localStorage w' = localStorage w /\
    calls (new_events w w') = [] /\ writes (new_events w w') = [] ->
    (backend_succeeded response = false ->
     profile w' = profile w /\ localStorage w' = localStorage w /\
     calls (new_events w w') = [] /\ writes (new_events w w') = []) /\
    calls (until_fetch (new_events w w')) = [] /\
    writes (until_fetch (new_events w w')) = [] /\
    (calls (new_events w w') <> [] ->
     backend_succeeded response = true /\
     fetches (new_events w w') = [endpoint g])).
  { intros w' Hidle. pose proof Hidle as (_ & _ & Hcalls & Hw).
    destruct (no_debit_before_fetch _ Hcalls Hw) as [Hu Hv].
    split; [done|]. split; [done|]. split; [done|].
    intros E. by rewrite Hcalls in E. }
  destruct held as [p|].
  - destruct (invoke_protocol g p response w)
      as (_ & _ & _ & _ & _ & Hf & Hc).
    unfold charged in Hc. rewrite Hafter in Hc. cbn [negb orb] in Hc.
    destruct (requested g && affordable g p) eqn:Hra; cbn [andb] in Hc.
    + destruct (delivered g response) eqn:Hdel.
      * pose proof (delivered_backend_succeeded g response Hafter Hdel) as Hs.
        destruct Hc as (_ & _ & _ & _ & Hu & Hv).
        split; [intros E; congruence|]. split; [done|]. split; [done|].
        intros _. by split.
      * by apply Hidle.
    + by apply Hidle.
  - apply Hidle.
    destruct (invoke_no_profile g response w)
      as (_ & _ & _ & _ & Hp & Hls & _ & _ & Hcalls & Hw).
    done.
Qed.

(** C5. For the bulk file analysis with a file selected and a balance that
    covers the price: the ledger call with [balance - price] and the storage
    write of the debited profile both come before the backend request; and
    for every backend outcome, failures included, the held and the persisted
    profile keep the reduced balance, with no ledger call and no storage
    write after the request (no refund). *)
Theorem file_analysis_charges_before (file : File) (approach : Approach)
    (p : UserProfile) (response : Outcome Response) (w : World) :
  POINTS_COST approach <= token_points p ->
  let g := FileAnalysis (Some file) approach in
  let w' := exec (invoke g (Some p) response) w in
  let evs := new_events w w' in
  let p' := with_points p (token_points p - POINTS_COST approach) in
  fetches evs = [endpoint g] /\
  calls (until_fetch evs) = [token_points p'] /\
  writes (until_fetch evs) = [(storage_key (id p), JSON_stringify p')] /\
  calls (after_fetch evs) = [] /\ writes (after_fetch evs) = [] /\
  profile w' = Some p' /\ persisted w' (id p) = Some p'.
Proof.
  intros Hle g w' evs p'. subst evs w'.
  destruct (invoke_protocol g p response w)
    as (_ & _ & _ & _ & _ & Hf & Hc).
  unfold charged in Hc.
  rewrite (proj2 (affordable_true g p) Hle) in Hf, Hc.
  cbn [g requested charge_after andb negb orb] in Hf, Hc.
  destruct Hc as (Hp & Hls & Hcalls & Hw & Hac & Haw).
  pose proof (calls_split
                (new_events w (exec (invoke g (Some p) response) w))) as Hcs.
  pose proof (writes_split
                (new_events w (exec (invoke g (Some p) response) w))) as Hws.
  rewrite Hcalls, Hac, app_nil_r in Hcs. rewrite Hw, Haw, app_nil_r in Hws.
  repeat split; try assumption; try (by symmetry).
  eapply persisted_insert, Hls.
Qed.

End GateProperties.

(** ** The ledger invariant *)

Section Reachability.

Context `{Runtime}.

Lemma invariant_frame (w w' : World) :
  ledger_invariant w ->
  profile w' = None \/ profile w' = profile w ->
  localStorage w' = localStorage w ->
  calls (trace w') = calls (trace w) ->
  ledger_invariant w'.
Proof.
  intros [Hh Hs Hc] Hp Hls Ht. split.
  - intros p E. destruct Hp as [Hp|Hp]; rewrite Hp in E; [done|eauto].
  - rewrite Hls. exact Hs.
  - by rewrite Ht.
Qed.

Lemma invariant_insert (w w' : World) (userId : string) (p : UserProfile)
    (evs : list Event) :
  ledger_invariant w ->
  0 <= token_points p ->
  profile w' = Some p ->
  localStorage w' =
    <[storage_key userId := JSON_stringify p]> (localStorage w) ->
  trace w' = trace w ++ evs ->
  Forall (fun n => 0 <= n) (calls evs) ->
  ledger_invariant w'.
Proof.
  intros [Hh Hs Hc] Hp Hw' Hls Ht Hevs. split.
  - intros q E. rewrite Hw' in E. by simplify_eq.
  - intros k v q. rewrite Hls.
    destruct (decide (storage_key userId = k)) as [<-|Hk].
    + rewrite lookup_insert_eq. intros [= <-].
      rewrite JSON_parse_stringify. by intros [= <-].
    + rewrite lookup_insert_ne by done. apply Hs.
  - rewrite Ht, calls_app. by apply Forall_app.
Qed.

Lemma fetchUserProfile_invariant (userId : string)
    (getUser : Outcome UserResponse) (now : string) (w : World) :
  ledger_invariant w ->
  ledger_invariant (exec (fetchUserProfile userId getUser now) w).
Proof.
  intros Hinv. unfold exec.
  destruct (fetchUserProfile_cases userId getUser now w)
    as [(p & Hp & ->)|(p & evs & Hp & _ & _ & Hevs & _ & ->)]; cbn [snd].
  - split; cbn [profile localStorage trace]; try apply Hinv.
    intros q [= <-]. unfold persisted in Hp.
    destruct (localStorage w !! storage_key userId) as [v|] eqn:Hv;
      [|done].
    eapply (stored_nonneg w Hinv); eauto.
  - eapply (invariant_insert w _ userId p); try done.
    + lia.
    + rewrite calls_app, Hevs. cbn. constructor.
Qed.

Lemma invoke_invariant (g : Gate) (held : option UserProfile)
    (response : Outcome Response) (w : World) :
  ledger_invariant w ->
  ledger_invariant (exec (invoke g held response) w).
Proof.
  intros Hinv. destruct held as [p|].
  - destruct (invoke_protocol g p response w)
      as (_ & _ & _ & _ & Ht & _ & Hc).
    destruct (charged g p response) eqn:Hch.
    + destruct Hc as (Hp & Hls & Hcalls & _).
      unfold charged in Hch.
      apply andb_prop in Hch as [Hch _]. apply andb_prop in Hch as [_ Haff].
      apply affordable_true in Haff.
      eapply (invariant_insert w _ (id p)); try done.
      * cbn. lia.
      * rewrite Hcalls. repeat constructor. lia.
    + destruct Hc as (Hp & Hls & Hcalls & _).
      eapply invariant_frame; eauto.
      by rewrite Ht, calls_app, Hcalls, app_nil_r.
  - destruct (invoke_no_profile g response w)
      as (_ & _ & _ & _ & Hp & Hls & Ht & _ & Hcalls & _).
    eapply invariant_frame; eauto.
    by rewrite Ht, calls_app, Hcalls, app_nil_r.
Qed.

Lemma reachable_invariant (w : World) : reachable w -> ledger_invariant w.
Proof.
  induction 1 as [|w _ IH|w gs gu now _ IH|w ev s gu now _ IH
                  |w0 w g response _ _ _ IH].
  - split; cbn; [done| |constructor].
    intros k v p Hk. by rewrite lookup_empty in Hk.
  - eapply invariant_frame; eauto.
  - destruct gs as [r|e]; [|exact IH].
    destruct (data_session r) as [s|] eqn:Hr; unfold exec.
    + rewrite (getInitialSession_session r s) by exact Hr.
      apply fetchUserProfile_invariant.
      eapply invariant_frame; eauto.
    + rewrite getInitialSession_no_session by exact Hr.
      eapply invariant_frame; eauto.
  - destruct s as [s|]; destruct w as [u s0 q l ls t].
    + apply (fetchUserProfile_invariant _ gu now
               (mkWorld (Some (session_user s)) (Some s) q l ls t)).
      eapply invariant_frame; eauto.
    + eapply invariant_frame; eauto.
  - by apply invoke_invariant.
Qed.

(** The argument a gate passes to the ledger mutator is non-negative
    whatever profile it runs with: it is [balance - price], computed only
    after the check [balance >= price]. *)
Lemma gate_argument_nonneg (g : Gate) (held : option UserProfile)
    (response : Outcome Response) (w : World) :
  Forall (fun n => 0 <= n)
    (calls (new_events w (exec (invoke g held response) w))).
Proof.
  destruct held as [p|].
  - destruct (invoke_protocol g p response w)
      as (_ & _ & _ & _ & _ & _ & Hc).
    destruct (charged g p response) eqn:Hch.
    + destruct Hc as (_ & _ & -> & _).
      unfold charged in Hch.
      apply andb_prop in Hch as [Hch _]. apply andb_prop in Hch as [_ Haff].
      apply affordable_true in Haff. repeat constructor. lia.
    + destruct Hc as (_ & _ & -> & _). constructor.
  - destruct (invoke_no_profile g response w)
      as (_ & _ & _ & _ & _ & _ & _ & _ & -> & _). constructor.
Qed.

(** C3. In every reachable state the held profile's balance is a
    non-negative integer, so is every persisted balance, and every call of
    the ledger mutator recorded in the trace (all of them made by feature
    gates) has a non-negative argument; indeed a gate run from that state,
    with whatever profile its closure holds, passes the ledger mutator only
    [balance - price] computed after the check [balance >= price]. *)
Theorem balance_never_negative (w : World) :
  reachable w ->
  (forall p, profile w = Some p -> 0 <= token_points p) /\
  (forall userId p, persisted w userId = Some p -> 0 <= token_points p) /\
  Forall (fun n => 0 <= n) (calls (trace w)) /\
  (forall g held response,
     Forall (fun n => 0 <= n)
       (calls (new_events w (exec (invoke g held response) w)))).
Proof.
  intros Hr. destruct (reachable_invariant w Hr) as [Hh Hs Hc].
  split; [exact Hh|]. split; [|split; [exact Hc|]].
  - intros userId p Hp. unfold persisted in Hp.
    destruct (localStorage w !! storage_key userId) as [v|] eqn:Hv; [|done].
    eapply Hs; eauto.
  - intros g held response. apply gate_argument_nonneg.
Qed.

End Reachability.

(** ** Further properties of the resolver *)

Section ResolverMore.

Context `{Runtime}.

Lemma stringify_is_truthy (p : UserProfile) :
  truthy (JSON_stringify p) = true.
Proof.
  pose proof (JSON_stringify_truthy p). by destruct (JSON_stringify p).
Qed.

(** After any run of the resolver the subject's record is in storage, is
    readable, and is the profile held. *)
Lemma fetchUserProfile_post (userId : string)
    (getUser : Outcome UserResponse) (now : string) (w : World) :
  let w' := exec (fetchUserProfile userId getUser now) w in
  exists v p,
    localStorage w' !! storage_key userId = Some v /\
    truthy v = true /\ JSON_parse v = Some p /\
    profile w' = Some p /\ loading w' = false.
Proof.
  intros w'. subst w'. unfold exec.
  assert (Hnew : forall p evs,
    exists v q,
      localStorage (created w userId p evs) !! storage_key userId = Some v /\
      truthy v = true /\ JSON_parse v = Some q /\
      profile (created w userId p evs) = Some q /\
      loading (created w userId p evs) = false).
  { intros p evs. exists (JSON_stringify p), p. cbn.
    rewrite lookup_insert_eq, stringify_is_truthy, JSON_parse_stringify.
    done. }
  destruct (localStorage w !! storage_key userId) as [saved|] eqn:Hget.
  - destruct (truthy saved) eqn:Htr.
    + destruct (JSON_parse saved) as [p|] eqn:Hp.
      * rewrite (fetchUserProfile_saved userId getUser now saved p w)
          by done.
        exists saved, p. done.
      * rewrite (fetchUserProfile_corrupt userId getUser now saved w)
          by done.
        apply Hnew.
    + destruct getUser as [userData|e].
      * rewrite fetchUserProfile_fresh by (by rewrite Hget). apply Hnew.
      * rewrite fetchUserProfile_fallback by (by rewrite Hget). apply Hnew.
  - destruct getUser as [userData|e].
    + rewrite fetchUserProfile_fresh by (by rewrite Hget). apply Hnew.
    + rewrite fetchUserProfile_fallback by (by rewrite Hget). apply Hnew.
Qed.

(** Resolution is idempotent: resolving a subject again, whatever the
    provider and the clock say the second time, holds the same profile,
    leaves the storage as it is and appends no event (no provider call, no
    write). *)
Theorem resolve_idempotent (userId : string)
    (getUser1 getUser2 : Outcome UserResponse) (now1 now2 : string)
    (w : World) :
  let w1 := exec (fetchUserProfile userId getUser1 now1) w in
  let w2 := exec (fetchUserProfile userId getUser2 now2) w1 in
  result (fetchUserProfile userId getUser2 now2) w1 = Resolved tt /\
  profile w2 = profile w1 /\ localStorage w2 = localStorage w1 /\
  new_events w1 w2 = [].
Proof.
  intros w1 w2. subst w2.
  destruct (fetchUserProfile_post userId getUser1 now1 w)
    as (v & p & Hv & Htr & Hp & Hheld & _).
  fold w1 in Hv, Hheld. unfold exec, result.
  rewrite (fetchUserProfile_saved userId getUser2 now2 v p w1) by done.
  cbn [fst snd profile localStorage]. unfold new_events. cbn [trace].
  by rewrite drop_all.
Qed.

(** An unreadable stored record is replaced: when the text stored for the
    subject does not parse, the resolver asks the provider nothing and
    overwrites the record with a fresh profile of empty e-mail and balance
    1000, which it holds. *)
Theorem unreadable_record_is_reset (userId saved : string)
    (getUser : Outcome UserResponse) (now : string) (w : World) :
  localStorage w !! storage_key userId = Some saved ->
  truthy saved = true ->
  JSON_parse saved = None ->
  let w' := exec (fetchUserProfile userId getUser now) w in
  let p := fallback_profile userId now in
  result (fetchUserProfile userId getUser now) w = Resolved tt /\
  profile w' = Some p /\ persisted w' userId = Some p /\
  new_events w w' =
    [localStorage_setItem (storage_key userId) (JSON_stringify p)].
Proof.
  intros Hget Htr Hp w' p. subst w' p. unfold exec, result.
  rewrite (fetchUserProfile_corrupt userId getUser now saved w) by done.
  cbn [fst snd]. rewrite created_persisted.
  repeat split. unfold new_events, created. cbn [trace].
  by rewrite new_events_app.
Qed.

(** An empty stored text counts as no record: the resolver consults the
    provider and creates the profile as on a first resolution. *)
Theorem empty_record_is_absent (userId : string) (userData : UserResponse)
    (now : string) (w : World) :
  localStorage w !! storage_key userId = Some EmptyString ->
  let w' := exec (fetchUserProfile userId (Resolved userData) now) w in
  let p := new_profile userId userData now in
  profile w' = Some p /\ persisted w' userId = Some p /\
  new_events w w' =
    [auth_getUser;
     localStorage_setItem (storage_key userId) (JSON_stringify p)].
Proof.
  intros Hget w' p. subst w' p. unfold exec.
  rewrite fetchUserProfile_fresh by (by rewrite Hget).
  cbn [snd]. rewrite created_persisted.
  repeat split. unfold new_events, created. cbn [trace].
  by rewrite new_events_app.
Qed.

(** [createUserProfile] never looks at the storage: it always asks the
    provider, completes without exception, and holds and persists a profile
    for the subject with balance 1000, overwriting whatever was stored; it
    leaves the loading flag alone. *)
Theorem createUserProfile_overwrites (userId : string)
    (getUser : Outcome UserResponse) (now : string) (w : World) :
  let w' := exec (createUserProfile userId getUser now) w in
  result (createUserProfile userId getUser now) w = Resolved tt /\
  exists p,
    profile w' = Some p /\ persisted w' userId = Some p /\
    id p = userId /\ token_points p = 1000 /\ created_at p = now /\
    (forall u e, getUser = Resolved (UserData (Some u)) ->
                 user_email u = Some e -> email p = e) /\
    (provider_failed getUser = true -> email p = EmptyString) /\
    loading w' = loading w /\
    new_events w w' =
      [auth_getUser;
       localStorage_setItem (storage_key userId) (JSON_stringify p)].
Proof.
  intros w'. subst w'. destruct w as [u s q l ls t].
  destruct getUser as [userData|e]; unfold createUserProfile; run.
  - split; [done|]. exists (new_profile userId userData now).
    rewrite lookup_insert_eq. cbn. rewrite JSON_parse_stringify.
    rewrite <- app_assoc, new_events_app.
    repeat split; try done.
    + intros u0 e [= ->] He. cbn. rewrite He. cbn. by destruct e.
    + by destruct userData.
  - split; [done|]. exists (fallback_profile userId now).
    rewrite lookup_insert_eq. cbn. rewrite JSON_parse_stringify.
    rewrite <- app_assoc, new_events_app.
    repeat split; try done.
Qed.

End ResolverMore.

(** ** The storage invariant *)

Section StoreInvariant.

Context `{Runtime}.

Lemma persisted_ext (w w' : World) (u : string) :
  localStorage w' = localStorage w -> persisted w' u = persisted w u.
Proof. unfold persisted. by intros ->. Qed.

Lemma persisted_insert_eq (w w' : World) (u : string) (p : UserProfile) :
  localStorage w' = <[storage_key u := JSON_stringify p]> (localStorage w) ->
  persisted w' u = Some p.
Proof.
  intros E. unfold persisted. rewrite E, lookup_insert_eq. cbn.
  apply JSON_parse_stringify.
Qed.

Lemma persisted_insert_ne (w w' : World) (u u' : string) (p : UserProfile) :
  localStorage w' = <[storage_key u := JSON_stringify p]> (localStorage w) ->
  u <> u' ->
  persisted w' u' = persisted w u'.
Proof.
  intros E Hne. unfold persisted. rewrite E, lookup_insert_ne; [done|].
  intros Hk. by apply storage_key_inj in Hk.
Qed.

Lemma price_nonneg (g : Gate) : 0 <= price g.
Proof. destruct g as [| | |? []]; cbn; lia. Qed.

Lemma store_frame (w w' : World) :
  store_invariant w ->
  profile w' = None \/ profile w' = profile w ->
  localStorage w' = localStorage w ->
  store_invariant w'.
Proof.
  intros [Hser Hid Hheld Hmax] Hp Hls. split.
  - rewrite Hls. exact Hser.
  - intros u p. rewrite (persisted_ext w w') by done. apply Hid.
  - intros p E. rewrite (persisted_ext w w') by done.
    destruct Hp as [Hp|Hp]; rewrite Hp in E; [done|by apply Hheld].
  - intros u p. rewrite (persisted_ext w w') by done. apply Hmax.
Qed.

Lemma store_insert (w w' : World) (p : UserProfile) :
  store_invariant w ->
  token_points p <= 1000 ->
  profile w' = Some p ->
  localStorage w' =
    <[storage_key (id p) := JSON_stringify p]> (localStorage w) ->
  store_invariant w'.
Proof.
  intros [Hser Hid Hheld Hmax] Hle Hp Hls. split.
  - intros k v. rewrite Hls.
    destruct (decide (storage_key (id p) = k)) as [<-|Hk].
    + rewrite lookup_insert_eq. intros [= <-]. by exists p.
    + rewrite lookup_insert_ne by done. apply Hser.
  - intros u q. destruct (decide (id p = u)) as [<-|Hu].
    + rewrite (persisted_insert_eq w w' (id p) p) by done. by intros [= <-].
    + rewrite (persisted_insert_ne w w' (id p) u p) by done. apply Hid.
  - intros q. rewrite Hp. intros [= <-].
    by apply (persisted_insert_eq w w').
  - intros u q. destruct (decide (id p = u)) as [<-|Hu].
    + rewrite (persisted_insert_eq w w' (id p) p) by done. by intros [= <-].
    + rewrite (persisted_insert_ne w w' (id p) u p) by done. apply Hmax.
Qed.

Lemma fetchUserProfile_store (userId : string)
    (getUser : Outcome UserResponse) (now : string) (w : World) :
  store_invariant w ->
  store_invariant (exec (fetchUserProfile userId getUser now) w).
Proof.
  intros Hinv. unfold exec.
  destruct (fetchUserProfile_cases userId getUser now w)
    as [(p & Hp & ->)|(p & evs & Hp & Hid & _ & _ & _ & ->)]; cbn [snd].
  - pose proof (stored_under_id w Hinv userId p Hp) as Hid.
    destruct Hinv as [Hser Hu Hheld Hmax]. split.
    + exact Hser.
    + exact Hu.
    + intros q [= <-]. by rewrite Hid.
    + exact Hmax.
  - apply (store_insert w _ p); try done.
    + lia.
    + cbn. by rewrite Hid.
Qed.

Lemma invoke_store (g : Gate) (held : option UserProfile)
    (response : Outcome Response) (w : World) :
  (forall p, held = Some p -> token_points p <= 1000) ->
  store_invariant w ->
  store_invariant (exec (invoke g held response) w).
Proof.
  intros Hheld Hinv. destruct held as [p|].
  - destruct (invoke_protocol g p response w)
      as (_ & _ & _ & _ & _ & _ & Hc).
    destruct (charged g p response).
    + destruct Hc as (Hp & Hls & _).
      apply (store_insert w _ (with_points p (token_points p - price g)));
        try done.
      cbn. pose proof (price_nonneg g). specialize (Hheld p eq_refl). lia.
    + destruct Hc as (Hp & Hls & _). eapply store_frame; eauto.
  - destruct (invoke_no_profile g response w)
      as (_ & _ & _ & _ & Hp & Hls & _).
    eapply store_frame; eauto.
Qed.

Lemma held_at_most_1000 (w : World) (p : UserProfile) :
  store_invariant w -> profile w = Some p -> token_points p <= 1000.
Proof.
  intros Hinv Hp. eapply (stored_at_most_1000 w Hinv).
  by apply (held_is_stored w Hinv).
Qed.

Lemma reachable_store (w : World) : reachable w -> store_invariant w.
Proof.
  induction 1 as [|w _ IH|w gs gu now _ IH|w ev s gu now _ IH
                  |w0 w g response _ IH0 _ IH].
  - split; unfold persisted; cbn; intros *; by rewrite ?lookup_empty.
  - eapply store_frame; eauto.
  - destruct gs as [r|e]; [|exact IH].
    destruct (data_session r) as [s|] eqn:Hr; unfold exec.
    + rewrite (getInitialSession_session r s) by exact Hr.
      apply fetchUserProfile_store. eapply store_frame; eauto.
    + rewrite getInitialSession_no_session by exact Hr.
      eapply store_frame; eauto.
  - destruct s as [s|]; destruct w as [u s0 q l ls t].
    + apply (fetchUserProfile_store _ gu now
               (mkWorld (Some (session_user s)) (Some s) q l ls t)).
      eapply store_frame; eauto.
    + eapply store_frame; eauto.
  - apply invoke_store; [|done].
    intros p Hp. by apply (held_at_most_1000 w0).
Qed.

(** Write-through: in every reachable state the profile held is exactly the
    record stored for its [id], and every stored record is filed under its
    own [id]. *)
Theorem held_profile_is_stored (w : World) :
  reachable w ->
  (forall p, profile w = Some p -> persisted w (id p) = Some p) /\
  (forall u p, persisted w u = Some p -> id p = u).
Proof.
  intros Hr. destruct (reachable_store w Hr) as [_ Hid Hheld _]. done.
Qed.

(** Points are never gained: in every reachable state the balance held and
    every balance stored is at most the starting balance 1000. *)
Theorem balance_at_most_start (w : World) :
  reachable w ->
  (forall p, profile w = Some p -> token_points p <= 1000) /\
  (forall u p, persisted w u = Some p -> token_points p <= 1000).
Proof.
  intros Hr. pose proof (reachable_store w Hr) as Hinv. split.
  - intros p. by apply held_at_most_1000.
  - apply (stored_at_most_1000 w Hinv).
Qed.

Lemma fetchUserProfile_keeps (userId : string)
    (getUser : Outcome UserResponse) (now : string) (w : World)
    (u : string) (p : UserProfile) :
  (forall k v, localStorage w !! k = Some v -> exists q, v = JSON_stringify q) ->
  persisted w u = Some p ->
  persisted (exec (fetchUserProfile userId getUser now) w) u = Some p.
Proof.
  intros Hser Hp. unfold exec.
  destruct (localStorage w !! storage_key userId) as [saved|] eqn:Hget.
  - destruct (Hser _ _ Hget) as [q ->].
    rewrite (fetchUserProfile_saved userId getUser now _ q w Hget).
    + exact Hp.
    + pose proof (JSON_stringify_truthy q). by destruct (JSON_stringify q).
    + apply JSON_parse_stringify.
  - assert (Hne : userId <> u).
    { intros ->. unfold persisted in Hp. by rewrite Hget in Hp. }
    destruct getUser as [userData|e].
    + rewrite fetchUserProfile_fresh by (by rewrite Hget). cbn [snd].
      rewrite <- Hp. by eapply persisted_insert_ne.
    + rewrite fetchUserProfile_fallback by (by rewrite Hget). cbn [snd].
      rewrite <- Hp. by eapply persisted_insert_ne.
Qed.

(** In serial use, from a reachable state, no operation deletes a profile,
    changes its [id], [email] or [created_at], or raises its balance: the
    record stored for a subject before a step is still stored after it with
    the same identity fields and a balance that is no larger. *)
Theorem stored_profile_stable (w w' : World) (u : string) (p : UserProfile) :
  reachable w ->
  step w w' ->
  persisted w u = Some p ->
  exists p',
    persisted w' u = Some p' /\
    id p' = id p /\ email p' = email p /\ created_at p' = created_at p /\
    token_points p' <= token_points p.
Proof.
  intros Hr Hstep Hp. pose proof (reachable_store w Hr) as Hinv.
  assert (Hsame : forall w1, localStorage w1 = localStorage w ->
            exists p', persisted w1 u = Some p' /\
              id p' = id p /\ email p' = email p /\
              created_at p' = created_at p /\
              token_points p' <= token_points p).
  { intros w1 E. exists p. rewrite (persisted_ext w w1) by done.
    repeat split; try done; lia. }
  assert (Hfetch : forall userId gu now w1,
            localStorage w1 = localStorage w ->
            exists p', persisted (exec (fetchUserProfile userId gu now) w1) u
                       = Some p' /\
              id p' = id p /\ email p' = email p /\
              created_at p' = created_at p /\
              token_points p' <= token_points p).
  { intros userId gu now w1 E. exists p.
    rewrite (fetchUserProfile_keeps userId gu now w1 u p).
    - repeat split; try done; lia.
    - rewrite E. apply (stored_serialised w Hinv).
    - by rewrite (persisted_ext w w1). }
  destruct Hstep as [w|w gs gu now|w ev s gu now|w g response].
  - by apply Hsame.
  - destruct gs as [r|e]; [|by apply Hsame].
    destruct (data_session r) as [s|] eqn:Hs; unfold exec.
    + rewrite (getInitialSession_session r s) by exact Hs.
      by apply Hfetch.
    + rewrite getInitialSession_no_session by exact Hs. by apply Hsame.
  - destruct s as [s|]; destruct w as [u0 s0 q l ls t].
    + by apply (Hfetch _ gu now
                  (mkWorld (Some (session_user s)) (Some s) q l ls t)).
    + by apply Hsame.
  - destruct (profile w) as [q|] eqn:Hq.
    + destruct (invoke_protocol g q response w)
        as (_ & _ & _ & _ & _ & _ & Hc).
      destruct (charged g q response).
      * destruct Hc as (_ & Hls & _).
        destruct (decide (id q = u)) as [<-|Hu].
        -- pose proof (held_is_stored w Hinv q Hq) as Hq'.
           rewrite Hp in Hq'. injection Hq' as ->.
           eexists. split; [by eapply persisted_insert_eq|]. cbn.
           pose proof (price_nonneg g). repeat split; lia.
        -- exists p. rewrite (persisted_insert_ne w _ (id q) u _ Hls Hu).
           repeat split; try done; lia.
      * destruct Hc as (_ & Hls & _). by apply Hsame.
    + destruct (invoke_no_profile g response w)
        as (_ & _ & _ & _ & _ & Hls & _).
      by apply Hsame.
Qed.

End StoreInvariant.

(** ** How the operations compose *)

Section Composition.

Context `{Runtime}.

(** A debit survives the session: after [updatePoints n] on a held profile,
    a sign-out clears the held profile but not the storage, and the next
    sign-in of the same subject holds the debited profile again, with no
    provider call and no storage write. *)
Theorem debit_survives_sign_out (p : UserProfile) (n : Z) (s : Session)
    (event1 event2 : string) (getUser1 getUser2 : Outcome UserResponse)
    (now1 now2 : string) (w : World) :
  user_id (session_user s) = id p ->
  let w1 := exec (updatePoints (Some p) n) w in
  let w2 := exec (onAuthStateChange event1 None getUser1 now1) w1 in
  let w3 := exec (onAuthStateChange event2 (Some s) getUser2 now2) w2 in
  profile w2 = None /\ localStorage w2 = localStorage w1 /\
  new_events w1 w2 = [] /\
  profile w3 = Some (with_points p n) /\
  localStorage w3 = localStorage w1 /\ new_events w2 w3 = [].
Proof.
  intros Hid w1 w2 w3. subst w3 w2 w1. unfold exec at 2 3 5 6 8 9 10 12 13.
  rewrite !updatePoints_Some. cbn [snd].
  destruct w as [u s0 q l ls t]. cbn [user session loading localStorage trace].
  unfold onAuthStateChange at 2 3 5 6 8 10. run.
  split; [done|]. split; [done|]. split; [by rewrite drop_all|].
  unfold exec, onAuthStateChange. run.
  set (w2 := mkWorld _ _ _ _ _ _).
  rewrite (fetchUserProfile_saved (user_id (session_user s)) getUser2 now2
             (JSON_stringify (with_points p n)) (with_points p n) w2).
  - cbn. by rewrite drop_all.
  - subst w2. cbn. rewrite Hid. apply lookup_insert_eq.
  - pose proof (JSON_stringify_truthy (with_points p n)).
    by destruct (JSON_stringify (with_points p n)).
  - apply JSON_parse_stringify.
Qed.

Lemma invoke_charged (g : Gate) (p : UserProfile)
    (response : Outcome Response) (w : World) :
  charged g p response = true ->
  let w' := exec (invoke g (Some p) response) w in
  let q := with_points p (token_points p - price g) in
  profile w' = Some q /\
  localStorage w' =
    <[storage_key (id p) := JSON_stringify q]> (localStorage w) /\
  calls (trace w') = calls (trace w) ++ [token_points q].
Proof.
  intros Hch w' q. subst w' q.
  destruct (invoke_protocol g p response w)
    as (_ & _ & _ & _ & Ht & _ & Hc).
  rewrite Hch in Hc. destruct Hc as (Hp & Hls & Hcalls & _).
  by rewrite Ht, calls_app, Hcalls.
Qed.

(** Debits compose in serial use: two charged gate runs, the second with
    the profile the first one left, end with balance [b - p1 - p2], held and
    persisted. *)
Theorem serial_debits_add_up (g1 g2 : Gate) (p : UserProfile)
    (response1 response2 : Outcome Response) (w : World) :
  let q := with_points p (token_points p - price g1) in
  charged g1 p response1 = true ->
  charged g2 q response2 = true ->
  let w1 := exec (invoke g1 (Some p) response1) w in
  let w2 := exec (invoke g2 (profile w1) response2) w1 in
  let r := with_points p (token_points p - price g1 - price g2) in
  profile w2 = Some r /\ persisted w2 (id p) = Some r.
Proof.
  intros q Hc1 Hc2 w1 w2 r. subst w2.
  destruct (invoke_charged g1 p response1 w Hc1) as (Hp1 & _).
  fold w1 in Hp1. rewrite Hp1.
  destruct (invoke_charged g2 q response2 w1 Hc2) as (Hp2 & Hls2 & _).
  split; [exact Hp2|].
  apply (persisted_insert_eq w1 _ (id p) r). exact Hls2.
Qed.

(** Lost update: when two charged gate runs both close over the same
    profile (the second started before the first one's debit was rendered),
    both call the ledger mutator, but the balance held and persisted at the
    end is [b - p2]: the first debit is lost. *)
Theorem stale_profile_loses_debit (g1 g2 : Gate) (p : UserProfile)
    (response1 response2 : Outcome Response) (w : World) :
  charged g1 p response1 = true ->
  charged g2 p response2 = true ->
  let w1 := exec (invoke g1 (Some p) response1) w in
  let w2 := exec (invoke g2 (Some p) response2) w1 in
  let r := with_points p (token_points p - price g2) in
  profile w2 = Some r /\ persisted w2 (id p) = Some r /\
  calls (trace w2) =
    calls (trace w) ++ [token_points p - price g1; token_points p - price g2].
Proof.
  intros Hc1 Hc2 w1 w2 r. subst w2.
  destruct (invoke_charged g1 p response1 w Hc1) as (_ & _ & Ht1).
  fold w1 in Ht1.
  destruct (invoke_charged g2 p response2 w1 Hc2) as (Hp2 & Hls2 & Ht2).
  split; [exact Hp2|]. split.
  - apply (persisted_insert_eq w1 _ (id p) r). exact Hls2.
  - rewrite Ht2, Ht1, <- app_assoc. done.
Qed.

(** An answer the gate cannot use is not charged, even a successful one:
    for a feature that charges afterwards, when the answer is not delivered
    (which includes an ok status with a set [success] flag but no 2D
    structure, no isomer, or a visualization that does not decode), the run
    posts its one request and leaves profile and storage as they were, with
    no ledger call and no write. *)
Theorem unusable_success_not_charged (g : Gate) (p : UserProfile)
    (response : Outcome Response) (w : World) :
  charge_after g = true ->
  requested g = true ->
  affordable g p = true ->
  delivered g response = false ->
  let w' := exec (invoke g (Some p) response) w in
  let evs := new_events w w' in
  fetches evs = [endpoint g] /\
  profile w' = profile w /\ localStorage w' = localStorage w /\
  calls evs = [] /\ writes evs = [].
Proof.
  intros Hafter Hreq Haff Hdel w' evs. subst evs w'.
  destruct (invoke_protocol g p response w)
    as (_ & _ & _ & _ & _ & Hf & Hc).
  unfold charged in Hc. rewrite Hreq, Haff in Hf, Hc.
  rewrite Hafter, Hdel in Hc. cbn in Hf, Hc.
  by destruct Hc as (? & ? & ? & ?).
Qed.

Ltac gate_run :=
  cbv [invoke handleProcessSmiles generate2DStructure open3DVisualization
       handleApproachSelection updatePoints
       charged requested affordable price delivered answered charge_after
       endpoint POINTS_COST with_points busy_flag
       ok json success total_isomers isomers structure_2d error detail
       id email token_points created_at
       negb andb orb];
  run.

Ltac is_atom b :=
  lazymatch b with
  | context [if _ then _ else _] => fail
  | context [match _ with _ => _ end] => fail
  | _ => idtac
  end.

Ltac gate_branch :=
  match goal with
  | |- context [if ?b then _ else _] => is_atom b; destruct b eqn:?
  | |- context [match ?x with _ => _ end] => is_atom x; destruct x eqn:?
  end; gate_run.

(** The busy flag is always lowered: every gate run that passes the input
    guard and the balance check, on every backend outcome (a rejected
    request, an unreadable body, a failing decode included), completes
    without exception, raises its busy flag, and ends by lowering it. *)
Theorem busy_flag_lowered (g : Gate) (p : UserProfile)
    (response : Outcome Response) (w : World) :
  requested g = true ->
  affordable g p = true ->
  let evs := new_events w (exec (invoke g (Some p) response) w) in
  result (invoke g (Some p) response) w = Resolved tt /\
  ui (busy_flag g true) ∈ evs /\
  last evs = Some (ui (busy_flag g false)).
Proof.
  destruct w as [u s q l ls t], p as [pid pem ptp pca].
  destruct response as [[okb [[sc ti iso s2d er de]|e]]|e],
    g as [si|sm sd sv|sm mn nw|sf ap];
    gate_run; repeat gate_branch; intros Hreq Haff; try discriminate;
    rewrite <- ?app_assoc; rewrite ?new_events_app;
    (split; [reflexivity|]); (split; [|reflexivity]);
    cbn; rewrite !elem_of_cons; tauto.
Qed.

(** Account not ready: with no resolved profile, a gate that is asked for
    its paid operation does nothing but show the message asking to wait for
    the profile; no request, no ledger call, no write. *)
Theorem no_profile_refused (g : Gate) (response : Outcome Response)
    (w : World) :
  requested g = true ->
  invoke g None response w =
  emit (toast_error "Please wait for your profile to load.") w.
Proof.
  destruct w as [u s q l ls t], g as [si|sm sd sv|sm mn nw|sf ap];
    gate_run; intros Hreq.
  - by destruct (truthy (trim si)).
  - by destruct (truthy (default EmptyString sd)).
  - done.
  - by destruct sf.
Qed.

End Composition.

(** ** Strings: occurrence, case, sanitising, splitting *)

Lemma prefix_spec (t s : string) :
  String.prefix t s = true <-> exists post, s = t +:+ post.
Proof.
  revert s. induction t as [|a t IH]; intros s.
  - split; [intros _; by exists s|by destruct s].
  - destruct s as [|b s]; cbn.
    + split; [done|]. by intros [? [=]].
    + destruct (ascii_dec a b) as [->|Hne].
      * rewrite IH. split; intros [post E]; exists post; [by rewrite E|].
        by injection E.
      * split; [done|]. intros [post [= E _]]. done.
Qed.

Lemma includes_spec (s t : string) : includes s t = true <-> occurs t s.
Proof.
  induction s as [|c s IH]; cbn [includes].
  - rewrite orb_false_r, prefix_spec. split.
    + intros [post E]. by exists EmptyString, post.
    + intros ([|? pre] & post & E); [by exists post|done].
  - rewrite orb_true_iff, prefix_spec, IH. split.
    + intros [[post E]|(pre & post & E)].
      * by exists EmptyString, post.
      * exists (String c pre), post. by rewrite E.
    + intros ([|a pre] & post & E).
      * left. by exists post.
      * right. injection E as -> E. by exists pre, post.
Qed.

Lemma includes_empty (s : string) : includes s EmptyString = true.
Proof. apply includes_spec. by exists EmptyString, s. Qed.

Lemma lower_idempotent (c : ascii) : lower (lower c) = lower c.
Proof. by destruct c as [[] [] [] [] [] [] [] []]. Qed.

Lemma toLowerCase_idempotent (s : string) :
  toLowerCase (toLowerCase s) = toLowerCase s.
Proof.
  induction s as [|c s IH]; [done|]. cbn. by rewrite lower_idempotent, IH.
Qed.

(** The names given to downloads are safe: whatever the SMILES text, the
    part of the name that comes from it consists of ASCII letters, digits
    and underscores only, has the length of the text, and is the text itself
    when that was already alphanumeric. *)
Theorem download_names_are_safe (o : option string) :
  Forall safe_char (list_ascii_of_string (show_sanitized o)) /\
  downloadResults_name o
    = "smiles_isomers_" +:+ show_sanitized o +:+ ".json" /\
  downloadStructure_name o = "structure_" +:+ show_sanitized o +:+ ".png" /\
  (forall s, String.length (replace_non_alnum s) = String.length s) /\
  (forall s, forallb is_alnum (list_ascii_of_string s) = true ->
             replace_non_alnum s = s).
Proof.
  split; [|split; [done|split; [done|split]]].
  - destruct o as [s|]; cbn [show_sanitized].
    + induction s as [|c s IH]; cbn; constructor; [|exact IH].
      unfold safe_char. destruct (is_alnum c) eqn:E; auto.
    + repeat constructor.
  - induction s as [|c s IH]; cbn; by rewrite ?IH.
  - induction s as [|c s IH]; cbn; [done|].
    intros [Hc Hs]%andb_prop. by rewrite Hc, IH.
Qed.

(** *** [split] and [pop] *)

Lemma split_on_nonempty (sep : ascii) (s : string) : split_on sep s <> [].
Proof.
  destruct s as [|c s]; cbn; [done|].
  destruct (Ascii.eqb c sep); [done|]. by destruct (split_on sep s).
Qed.

Lemma split_on_single (sep : ascii) (s x : string) :
  split_on sep s = [x] -> x = s /\ has_char sep s = false.
Proof.
  revert x. induction s as [|c s IH]; intros x; cbn.
  - by intros [= <-].
  - destruct (Ascii.eqb c sep) eqn:Hc.
    + intros [= _ E]. by apply split_on_nonempty in E.
    + destruct (split_on sep s) as [|y ys] eqn:Hs.
      { by apply split_on_nonempty in Hs. }
      intros [= <- ->]. destruct (IH y eq_refl) as [-> ->]. done.
Qed.

Lemma split_on_no_sep (sep : ascii) (s : string) :
  has_char sep s = false -> split_on sep s = [s].
Proof.
  induction s as [|c s IH]; cbn; [done|].
  intros [Hc Hs]%orb_false_elim. by rewrite Hc, IH.
Qed.

Lemma pop_cons (x : string) (l : list string) :
  l <> [] -> pop (x :: l) = pop l.
Proof. by destruct l. Qed.

Lemma string_app_length (a b : string) :
  String.length (a +:+ b) = (String.length a + String.length b)%nat.
Proof.
  induction a as [|c a IH]; [done|].
  change (S (String.length (a +:+ b))
          = S (String.length a + String.length b)).
  by rewrite IH.
Qed.

(** The last piece of a split is the whole text when the separator does not
    occur, and otherwise what follows the last separator. *)
Lemma pop_split_on (sep : ascii) (s : string) :
  (split_on sep s = [s] /\ has_char sep s = false) \/
  (exists stem, s = stem +:+ String sep (pop (split_on sep s))).
Proof.
  induction s as [|c s IH]; cbn [split_on].
  - by left.
  - destruct (Ascii.eqb_spec c sep) as [->|Hne].
    + right. rewrite pop_cons by apply split_on_nonempty.
      destruct IH as [[E _]|[stem E]].
      * exists EmptyString. by rewrite E.
      * exists (String sep stem). rewrite E at 1. reflexivity.
    + destruct IH as [[E Hs]|[stem E]].
      * left. rewrite E. cbn. split; [done|].
        rewrite Hs. by destruct (Ascii.eqb_spec c sep).
      * right. destruct (split_on sep s) as [|x xs] eqn:Hsp.
        { by apply split_on_nonempty in Hsp. }
        destruct xs as [|y ys].
        -- destruct (split_on_single sep s x Hsp) as [-> _].
           cbn in E. apply (f_equal String.length) in E.
           rewrite string_app_length in E. cbn in E. lia.
        -- exists (String c stem). rewrite E at 1. reflexivity.
Qed.

Lemma pop_split_on_no_sep (sep : ascii) (s : string) :
  has_char sep (pop (split_on sep s)) = false.
Proof.
  induction s as [|c s IH]; cbn [split_on]; [done|].
  destruct (Ascii.eqb_spec c sep) as [->|Hne].
  - by rewrite pop_cons by apply split_on_nonempty.
  - destruct (split_on sep s) as [|x xs] eqn:Hsp.
    { by apply split_on_nonempty in Hsp. }
    destruct xs as [|y ys]; [|exact IH].
    cbn in *. rewrite IH. by destruct (Ascii.eqb_spec c sep).
Qed.

Lemma pop_split_on_app (sep : ascii) (stem e : string) :
  pop (split_on sep (stem +:+ String sep e)) = pop (split_on sep e).
Proof.
  induction stem as [|c stem IH].
  - change (EmptyString +:+ String sep e) with (String sep e).
    cbn [split_on]. rewrite Ascii.eqb_refl.
    apply pop_cons, split_on_nonempty.
  - change (String c stem +:+ String sep e)
      with (String c (stem +:+ String sep e)).
    cbn [split_on]. destruct (Ascii.eqb c sep).
    + rewrite pop_cons by apply split_on_nonempty. exact IH.
    + destruct (split_on sep (stem +:+ String sep e)) as [|x xs] eqn:Hsp.
      { by apply split_on_nonempty in Hsp. }
      destruct xs as [|y ys]; [|exact IH].
      destruct (split_on_single sep _ x Hsp) as [_ Hno].
      exfalso. clear -Hno. induction stem as [|a stem IH].
      * change (EmptyString +:+ String sep e) with (String sep e) in Hno.
        cbn in Hno. by rewrite Ascii.eqb_refl in Hno.
      * change (String a stem +:+ String sep e)
          with (String a (stem +:+ String sep e)) in Hno.
        cbn in Hno. apply orb_false_elim in Hno as [_ Hno]. by apply IH.
Qed.

(** The extension of a file name: for a text [e] without a dot, the
    lowercased name has extension [e] exactly when it is [e] itself or ends
    with a dot followed by [e]. *)
Lemma fileExtension_spec (name e : string) :
  fileExtension name = e <->
  has_char "." e = false /\
  (toLowerCase name = e \/ exists stem, toLowerCase name = stem +:+ "." +:+ e).
Proof.
  unfold fileExtension. fold (pop (split_on "." (toLowerCase name))).
  set (s := toLowerCase name). split.
  - intros <-. split; [apply pop_split_on_no_sep|].
    destruct (pop_split_on "." s) as [[E _]|[stem E]].
    + left. by rewrite E.
    + right. exists stem. exact E.
  - intros [Hno [E|[stem E]]]; rewrite E.
    + by rewrite split_on_no_sep.
    + change (stem +:+ "." +:+ e) with (stem +:+ String "." e).
      rewrite pop_split_on_app. by rewrite split_on_no_sep.
Qed.

(** ** The free viewer, the upload check, the molecule search *)

Section FreeHandlerProperties.

Context `{Runtime}.

(** Opening a visualization from the SMILES results is free and fails
    softly: it never throws, leaves the AuthProvider state and the storage
    alone, posts nothing and calls no ledger mutator; content that is not
    base64 opens no window and shows one error toast; a blocked pop-up
    writes nothing. *)
Theorem openVisualization_free (htmlContent title : string)
    (newWindow : bool) (w : World) :
  let w' := exec (openVisualization htmlContent title newWindow) w in
  let evs := new_events w w' in
  result (openVisualization htmlContent title newWindow) w = Resolved tt /\
  user w' = user w /\ session w' = session w /\ profile w' = profile w /\
  loading w' = loading w /\ localStorage w' = localStorage w /\
  evs = match atob htmlContent with
        | None => [toast_error "Failed to open visualization"]
        | Some decodedHtml =>
            window_open ::
            (if newWindow then [document_write decodedHtml title] else [])
        end.
Proof.
  destruct w as [u s q l ls t]. unfold openVisualization. run.
  destruct (atob htmlContent) as [d|]; [destruct newWindow|]; cbn;
    rewrite <- ?app_assoc, ?new_events_app; done.
Qed.

(** The upload check of [handleFile]: a file is selected exactly when its
    size is within [maxSizeMB] megabytes and its extension, the lowercased
    text after the last dot of its name (the whole name when it has no dot),
    is one of the accepted ones; it is then one of them without a dot, and
    the name either is that text or ends with a dot followed by it.  A
    rejected file gives a single error toast, the size being checked
    first. *)
Theorem handleFile_selects (acceptedTypes : string) (maxSizeMB : Z)
    (file : File) (size : Z) (w : World) :
  let w' := exec (handleFile acceptedTypes maxSizeMB file size) w in
  let evs := new_events w w' in
  let lowered := toLowerCase (file_name file) in
  (ui (setSelectedFile (Some file)) ∈ evs <->
   size <= maxSizeMB * 1048576 /\
   exists e, e ∈ acceptedExtensions acceptedTypes /\
     has_char "." e = false /\
     (lowered = e \/ exists stem, lowered = stem +:+ "." +:+ e)) /\
  (maxSizeMB * 1048576 < size ->
   evs = [toast_error ("File size must be less than "
                       +:+ Number_toString maxSizeMB +:+ "MB")]) /\
  (ui (setSelectedFile (Some file)) ∉ evs ->
   exists msg, evs = [toast_error msg]).
Proof.
  intros w' evs lowered. subst evs w'.
  assert (Hext : fileExtension (file_name file) ∈ acceptedExtensions acceptedTypes
            <-> exists e, e ∈ acceptedExtensions acceptedTypes /\
                  has_char "." e = false /\
                  (lowered = e \/ exists stem, lowered = stem +:+ "." +:+ e)).
  { split.
    - intros Hin. exists (fileExtension (file_name file)).
      split; [done|]. by apply fileExtension_spec.
    - intros (e & Hin & Hno & Hshape).
      by rewrite (proj2 (fileExtension_spec (file_name file) e)). }
  destruct w as [u s q l ls t]. unfold handleFile.
  change (1024 * 1024) with 1048576.
  destruct (Z.ltb_spec (maxSizeMB * 1048576) size) as [Hbig|Hok].
  - run. rewrite new_events_app. split; [|split].
    + split.
      * intros [=]%list_elem_of_singleton.
      * intros [? _]. lia.
    + done.
    + intros _. by eexists.
  - destruct (bool_decide_reflect
                (fileExtension (file_name file)
                 ∈ acceptedExtensions acceptedTypes)) as [Hin|Hnin];
      cbv [negb]; run.
    + rewrite <- app_assoc, new_events_app. split; [|split].
      * split; [intros _; split; [lia|by apply Hext]|]. intros _. cbn.
        apply list_elem_of_here.
      * intros ?. lia.
      * intros Hn. exfalso. apply Hn. cbn. apply list_elem_of_here.
    + rewrite new_events_app. split; [|split].
      * split.
        -- intros [=]%list_elem_of_singleton.
        -- intros [_ He]. by apply Hext in He.
      * intros ?. lia.
      * intros _. by eexists.
Qed.

End FreeHandlerProperties.

(** With the default [acceptedTypes] the only accepted extension is
    [mol2]. *)
Example acceptedExtensions_default : acceptedExtensions ".mol2" = ["mol2"].
Proof. reflexivity. Qed.

Lemma matchesSearch_lower (searchTerm : string) (molecule : Molecule) :
  matchesSearch (toLowerCase searchTerm) molecule
  = matchesSearch searchTerm molecule.
Proof. unfold matchesSearch. by rewrite toLowerCase_idempotent. Qed.

Lemma filter_elem_of {A} (f : A -> bool) (l : list A) (x : A) :
  x ∈ List.filter f l <-> x ∈ l /\ f x = true.
Proof. rewrite !list_elem_of_In. apply filter_In. Qed.

(** What the molecule search lists: a molecule of the table is listed
    exactly when the lowercased search term occurs in its lowercased name,
    SMILES or category, and the selected category is "All" or occurs, as
    typed, in its category text. *)
Theorem molecule_search_spec (searchTerm selectedCategory : string)
    (molecule : Molecule) :
  molecule ∈ filteredMolecules searchTerm selectedCategory <->
  molecule ∈ moleculeData /\
  (occurs (toLowerCase searchTerm) (toLowerCase (name molecule)) \/
   occurs (toLowerCase searchTerm) (toLowerCase (molecule_smiles molecule)) \/
   occurs (toLowerCase searchTerm) (toLowerCase (category molecule))) /\
  (selectedCategory = "All" \/ occurs selectedCategory (category molecule)).
Proof.
  unfold filteredMolecules. rewrite filter_elem_of.
  unfold matchesSearch, matchesCategory.
  rewrite andb_true_iff, !orb_true_iff, !includes_spec, String.eqb_eq.
  tauto.
Qed.

(** The search ignores the case of the term, lists the whole table when
    there is no term and the category is "All", and a category only narrows
    the list obtained with "All". *)
Theorem molecule_search_case_insensitive (searchTerm selectedCategory : string) :
  filteredMolecules (toLowerCase searchTerm) selectedCategory
    = filteredMolecules searchTerm selectedCategory /\
  filteredMolecules EmptyString "All" = moleculeData /\
  (forall molecule,
     molecule ∈ filteredMolecules searchTerm selectedCategory ->
     molecule ∈ filteredMolecules searchTerm "All").
Proof.
  split; [|split].
  - unfold filteredMolecules. apply filter_ext. intros m.
    by rewrite matchesSearch_lower.
  - unfold filteredMolecules. apply forallb_filter_id, forallb_forall.
    intros m _. unfold matchesSearch, matchesCategory. cbn [toLowerCase].
    by rewrite includes_empty.
  - intros m. rewrite !molecule_search_spec. intros (? & ? & _). auto.
Qed.

(** ** The sign-in and sign-up forms *)

Ltac page_run :=
  cbv [effects settled SignIn_handleSubmit SignUp_handleSubmit handleSignOut
       signIn signUp signOut page_bind page_ret page_throw page_await
       page_try_catch page_try_finally tell message_or
       response_user response_session response_error fst snd negb app].

(** Splits a membership in an explicit list of effects, keeping the cases
    that are not refuted by the constructors. *)
Ltac find_effect Hin :=
  repeat (apply elem_of_cons in Hin as [Hin|Hin]; [try discriminate Hin|]);
  try (by apply elem_of_nil in Hin).

(** The sign-up form validates before it calls the provider: the provider
    is called exactly when the two passwords are equal and the password has
    at least six code units; otherwise the submission does nothing but show
    one error toast, the mismatch being reported first. *)
Theorem sign_up_form_validates (origin email password confirmPassword : string)
    (r : Settled AuthResponse) :
  let evs := effects (SignUp_handleSubmit origin email password
                        confirmPassword r) in
  (supabase_signUp email password (origin +:+ "/") ∈ evs <->
   password = confirmPassword /\ (6 <= String.length password)%nat) /\
  (password <> confirmPassword ->
   evs = [preventDefault; shown (toast_error "Passwords do not match")]) /\
  (password = confirmPassword -> (String.length password < 6)%nat ->
   evs = [preventDefault;
          shown (toast_error "Password must be at least 6 characters long")]).
Proof.
  intros evs. subst evs. page_run.
  destruct (String.eqb_spec password confirmPassword) as [->|Hne].
  - destruct (Nat.ltb_spec (String.length confirmPassword) 6) as [Hlt|Hge].
    + split; [|split]; [|done|done]. split.
      * rewrite !elem_of_cons, elem_of_nil. intros [|[|[]]]; done.
      * intros [_ ?]. lia.
    + split; [|split]; [|done|intros _ ?; lia]. split; [done|]. intros _.
      destruct r as [[[u|] [s|] [m|]]|e]; try destruct (email_confirmed_at u) as [[|? ?]|];
        cbn; rewrite !elem_of_cons; tauto.
  - split; [|split]; [|done|done]. split.
    + rewrite !elem_of_cons, elem_of_nil. intros [|[|[]]]; done.
    + intros [? _]. done.
Qed.

(** An unconfirmed sign-up is reported as an error: when the provider
    creates the user without error but the user's e-mail is not confirmed,
    the form shows the check-your-e-mail message as an error toast, not the
    account-created success toast, and does not navigate. *)
Theorem unconfirmed_sign_up_is_an_error (origin email password : string)
    (response : AuthResponse) (u : User) :
  (6 <= String.length password)%nat ->
  response_error response = None ->
  response_user response = Some u ->
  confirmed u = false ->
  effects (SignUp_handleSubmit origin email password password
             (fulfilled response)) =
  [preventDefault;
   shown (ui (setIsLoading true));
   supabase_signUp email password (origin +:+ "/");
   shown (toast_error
     "Please check your email and click the confirmation link before signing in.");
   shown (ui (setIsLoading false))].
Proof.
  intros Hlen Herr Hu Hconf. destruct response as [ru rs re].
  cbn in Herr, Hu. subst re ru. page_run.
  rewrite String.eqb_refl.
  destruct (Nat.ltb_spec (String.length password) 6) as [Hlt|_]; [lia|].
  unfold confirmed in Hconf. rewrite Hconf. reflexivity.
Qed.

(** Where the sign-up form navigates: it never throws; it goes to the home
    page only after a sign-up without error that returned a confirmed user
    together with a session, and to the sign-in page only after one that
    returned no user; provider errors and rejections never navigate. *)
Theorem sign_up_navigation (origin email password confirmPassword : string)
    (r : Settled AuthResponse) (to : string) :
  let m := SignUp_handleSubmit origin email password confirmPassword r in
  settled m = fulfilled tt /\
  (navigate to ∈ effects m ->
   exists response,
     r = fulfilled response /\ response_error response = None /\
     ((to = "/" /\ is_Some (response_session response) /\
       exists u, response_user response = Some u /\ confirmed u = true) \/
      (to = "/signin" /\ response_user response = None))).
Proof.
  intros m. subst m. page_run.
  destruct (String.eqb password confirmPassword).
  2:{ split; [done|]. rewrite !elem_of_cons, elem_of_nil.
      intros [|[|[]]]; done. }
  destruct (String.length password <? 6)%nat.
  { split; [done|]. rewrite !elem_of_cons, elem_of_nil.
    intros [|[|[]]]; done. }
  destruct r as [[[u|] [s|] [msg|]]|e]; unfold confirmed;
    try destruct (truthy (default EmptyString (email_confirmed_at u))) eqn:Hc;
    cbn; (split; [done|]); intros Hin; find_effect Hin;
    injection Hin as ->; eexists; (split; [done|]); (split; [done|]).
  - left. split; [done|]. split; [by eexists|]. exists u. by rewrite Hc.
  - by right.
  - by right.
Qed.

(** The sign-in form never throws, always lowers its loading flag at the
    end, and navigates (to the home page) exactly when the provider signed
    the user in without error. *)
Theorem sign_in_navigates_on_success_only (email password : string)
    (r : Settled AuthResponse) (to : string) :
  let m := SignIn_handleSubmit email password r in
  settled m = fulfilled tt /\
  last (effects m) = Some (shown (ui (setIsLoading false))) /\
  (navigate to ∈ effects m <->
   to = "/" /\
   exists response, r = fulfilled response /\ response_error response = None).
Proof.
  intros m. subst m. page_run.
  destruct r as [[ru rs [msg|]]|e]; cbn.
  1,3: repeat match goal with
         | |- context [if ?b then _ else _] => destruct b
         end; cbn; (split; [done|]); (split; [done|]);
       (split; [intros Hin; by find_effect Hin
               |intros [_ (? & E & He)]; simplify_eq/=]).
  split; [done|]. split; [done|]. split.
  - intros Hin. find_effect Hin. injection Hin as ->.
    split; [done|]. by eexists.
  - intros [-> _]. rewrite !elem_of_cons. tauto.
Qed.

(** A failed sign-out is swallowed: [handleSignOut] never throws, and it
    navigates to the sign-in page exactly when the provider signed the user
    out without error; on an error or a rejection it only logs to the
    console. *)
Theorem handleSignOut_navigates_on_success_only (r : Settled (option string))
    (to : string) :
  settled (handleSignOut r) = fulfilled tt /\
  (navigate to ∈ effects (handleSignOut r) <->
   to = "/signin" /\ r = fulfilled None) /\
  (r <> fulfilled None ->
   effects (handleSignOut r) =
     [supabase_signOut; console_error "Error signing out:"]).
Proof.
  page_run. destruct r as [[msg|]|e]; cbn; (split; [done|]);
    (split; [|done]).
  - split; [intros Hin; by find_effect Hin|intros [_ [=]]].
  - split; [|intros [-> _]; rewrite !elem_of_cons; tauto].
    intros Hin. find_effect Hin. by injection Hin as ->.
  - split; [intros Hin; by find_effect Hin|intros [_ [=]]].
Qed.

(** ** Concrete runs on the reference runtime *)

#[local] Existing Instance ReferenceRuntime.runtime.

Example smiles_run_trace :
  new_events (world_with 50)
    (exec (invoke (SmilesIsomers "  CCO ") (profile (world_with 50))
             ok_response) (world_with 50)) =
  [ui (setIsProcessing true); ui (setResults None);
   http_fetch "/api/process-smiles" (SmilesBody "CCO");
   ui (setResults (Some (mkPayload true (Some 2) None None None None)));
   call_updatePoints 43;
   localStorage_setItem "user_profile_u1"
     (JSON_stringify (mkUserProfile "u1" "a@b.com" 43 t0));
   toast_success
     "Successfully generated 2 isomer(s)! 7 points deducted. Remaining: 43";
   ui (setIsProcessing false)].
Proof. reflexivity. Qed.

Example file_analysis_failure_trace :
  new_events (world_with 50)
    (exec (invoke (FileAnalysis (Some (mkFile "ligand.mol2")) quantum)
             (profile (world_with 50)) error_response) (world_with 50)) =
  [call_updatePoints 15;
   localStorage_setItem "user_profile_u1"
     (JSON_stringify (mkUserProfile "u1" "a@b.com" 15 t0));
   toast_success "35 points deducted. Remaining: 15";
   ui (setIsAnalyzing true);
   toast_info "Starting quantum analysis...";
   http_fetch "/api/upload-and-process"
     (FormData (mkFile "ligand.mol2") quantum);
   toast_error "Analysis failed: Internal Server Error";
   ui (setIsAnalyzing false)].
Proof. reflexivity. Qed.

Example refusal_trace :
  new_events (world_with 5)
    (exec (invoke (SmilesIsomers "CCO") (profile (world_with 5))
             ok_response) (world_with 5)) =
  [toast_error
     (insufficient_balance "SMILES analysis" 7 " points" 5)].
Proof. reflexivity. Qed.

Example reload_resolves_saved_profile :
  let w := exec (updatePoints (profile (world_with 50)) 15) (world_with 50) in
  let reloaded := initial_world (localStorage w) in
  profile (exec (fetchUserProfile "u1" (Rejected (Error "offline")) t0)
             reloaded) =
  Some (mkUserProfile "u1" "a@b.com" 15 t0).
Proof. vm_compute. reflexivity. Qed.



(** The scenario of a 20-point profile asking for the 35-point analysis. *)
Lemma insufficient_balance_refused_witness :
  let p := mkUserProfile "u1" "a@b.com" 20 t0 in
  let g := FileAnalysis (Some (mkFile "ligand.mol2")) quantum in
  let w := world_with 20 in
  let w' := exec (invoke g (Some p) ok_response) w in
  let evs := new_events w w' in
  token_points p < price g /\
  fetches evs = [] /\ calls evs = [] /\ writes evs = [] /\
  profile w' = profile w /\ localStorage w' = localStorage w /\
  (requested g = true ->
   exists what unit_,
     invoke g (Some p) ok_response w =
     emit (toast_error
             (insufficient_balance what (price g) unit_ (token_points p))) w).
Proof.
  intros p g w w' evs.
  assert (Hlt : token_points p < price g) by (cbn; lia).
  split; [exact Hlt|].
  exact (insufficient_balance_refused g p ok_response w Hlt).
Defined.

(** A first load, a sign-in of "u1" and a SMILES run: a reachable world. *)
Lemma balance_never_negative_witness :
  let u := mkUser "u1" (Some "a@b.com") (Some t0) in
  let w1 := exec (onAuthStateChange "SIGNED_IN" (Some (mkSession u))
                    (Resolved (UserData (Some u))) t0)
              (initial_world ∅) in
  let w2 := exec (invoke (SmilesIsomers "CCO") (profile w1) ok_response)
              w1 in
  reachable w2 /\
  (forall p, profile w2 = Some p -> 0 <= token_points p) /\
  (forall userId p, persisted w2 userId = Some p -> 0 <= token_points p) /\
  Forall (fun n => 0 <= n) (calls (trace w2)) /\
  (forall g held response,
     Forall (fun n => 0 <= n)
       (calls (new_events w2 (exec (invoke g held response) w2)))).
Proof.
  intros u w1 w2.
  assert (Hr1 : reachable w1)
    by (apply reach_auth_change, reach_first_load).
  assert (Hr2 : reachable w2) by (apply reach_gate; exact Hr1).
  split; [exact Hr2|].
  exact (balance_never_negative w2 Hr2).
Defined.

(** A SMILES run whose request is rejected by the network. *)
Lemma charge_after_success_only_witness :
  let g := SmilesIsomers "CCO" in
  let held := profile (world_with 50) in
  let response : Outcome Response := Rejected (Error "Failed to fetch") in
  let w' := exec (invoke g held response) (world_with 50) in
  let evs := new_events (world_with 50) w' in
  charge_after g = true /\
  (backend_succeeded response = false ->
   profile w' = profile (world_with 50) /\
   localStorage w' = localStorage (world_with 50) /\
   calls evs = [] /\ writes evs = []) /\
  calls (until_fetch evs) = [] /\ writes (until_fetch evs) = [] /\
  (calls evs <> [] ->
   backend_succeeded response = true /\ fetches evs = [endpoint g]).
Proof.
  intros g held response w' evs.
  split; [reflexivity|].
  exact (charge_after_success_only g held response (world_with 50) eq_refl).
Defined.

(** A quantum analysis paid from 50 points whose backend call fails. *)
Lemma file_analysis_charges_before_witness :
  let file := mkFile "ligand.mol2" in
  let p := mkUserProfile "u1" "a@b.com" 50 t0 in
  let g := FileAnalysis (Some file) quantum in
  let w := world_with 50 in
  let w' := exec (invoke g (Some p) error_response) w in
  let evs := new_events w w' in
  let p' := with_points p 15 in
  POINTS_COST quantum <= token_points p /\
  fetches evs = [endpoint g] /\
  calls (until_fetch evs) = [token_points p'] /\
  writes (until_fetch evs) = [(storage_key (id p), JSON_stringify p')] /\
  calls (after_fetch evs) = [] /\ writes (after_fetch evs) = [] /\
  profile w' = Some p' /\ persisted w' (id p) = Some p'.
Proof.
  intros file p g w w' evs p'.
  assert (Hle : POINTS_COST quantum <= token_points p) by (cbn; lia).
  split; [exact Hle|].
  exact (file_analysis_charges_before file quantum p error_response w Hle).
Defined.

(** The provider rejects the e-mail fetch on a first resolution. *)
Lemma resolve_provider_failure_witness :
  let getUser : Outcome UserResponse := Rejected (Error "Failed to fetch") in
  let w := initial_world ∅ in
  let w' := exec (fetchUserProfile "u1" getUser t0) w in
  localStorage w !! storage_key "u1" = None /\
  result (fetchUserProfile "u1" getUser t0) w = Resolved tt /\
  is_Some (profile w') /\
  (provider_failed getUser = true ->
   let p := mkUserProfile "u1" EmptyString 1000 t0 in
   profile w' = Some p /\ persisted w' "u1" = Some p /\
   loading w' = false /\
   writes (new_events w w') = [(storage_key "u1", JSON_stringify p)]).
Proof.
  intros getUser w w'.
  split; [reflexivity|].
  exact (resolve_provider_failure w "u1" getUser t0 eq_refl).
Defined.

(** The scenario of subject "u1" observed with e-mail "a@b.com". *)
Lemma first_resolution_creates_witness :
  let getUser := Resolved (UserData (Some (mkUser "u1" (Some "a@b.com")
                                             None))) in
  let w := initial_world ∅ in
  let w' := exec (fetchUserProfile "u1" getUser t0) w in
  "u1" <> EmptyString /\
  (localStorage w !! storage_key "u1" = None ->
   exists p,
     profile w' = Some p /\ persisted w' "u1" = Some p /\
     writes (new_events w w') = [(storage_key "u1", JSON_stringify p)] /\
     id p = "u1" /\ id p <> EmptyString /\ token_points p = 1000 /\
     created_at p = t0 /\
     forall u e, getUser = Resolved (UserData (Some u)) ->
                 user_email u = Some e ->
                 p = mkUserProfile "u1" e 1000 t0).
Proof.
  intros getUser w w'.
  assert (Hne : "u1" <> EmptyString) by discriminate.
  split; [exact Hne|].
  exact (proj2 (first_resolution_creates w "u1" getUser t0 Hne)).
Defined.

(** C9, as stated, fails: when the initial [getSession()] promise rejects,
    the continuation never runs, the rejection is the result of the
    operation, the loading flag stays unresolved, and the outcome differs
    from that of an answer with no session. *)
Lemma initial_session_rejection_escapes :
  let getUser : Outcome UserResponse := Resolved (UserData None) in
  let m := getInitialSession (Rejected (Error "Failed to fetch")) getUser t0 in
  let no_session := getInitialSession (Resolved (SessionData None))
                      getUser t0 in
  result m (initial_world ∅) = Rejected (Error "Failed to fetch") /\
  loading (exec m (initial_world ∅)) = true /\
  loading (exec no_session (initial_world ∅)) = false /\
  m (initial_world ∅) <> no_session (initial_world ∅).
Proof.
  intros getUser m no_session. repeat split. discriminate.
Qed.

(** A stored text that is not a serialised profile. *)
Lemma unreadable_record_is_reset_witness :
  let w := mkWorld None None None true
             (<[storage_key "u1" := "not a profile"]> ∅) [] in
  let getUser : Outcome UserResponse :=
    Resolved (UserData (Some (mkUser "u1" (Some "a@b.com") None))) in
  let w' := exec (fetchUserProfile "u1" getUser t0) w in
  let p := fallback_profile "u1" t0 in
  (localStorage w !! storage_key "u1" = Some "not a profile" /\
   truthy "not a profile" = true /\ JSON_parse "not a profile" = None) /\
  result (fetchUserProfile "u1" getUser t0) w = Resolved tt /\
  profile w' = Some p /\ persisted w' "u1" = Some p /\
  new_events w w' =
    [localStorage_setItem (storage_key "u1") (JSON_stringify p)].
Proof.
  intros w getUser w' p.
  split; [repeat split|].
  exact (unreadable_record_is_reset "u1" "not a profile" getUser t0 w
           eq_refl eq_refl eq_refl).
Defined.

Lemma empty_record_is_absent_witness :
  let w := mkWorld None None None true
             (<[storage_key "u1" := EmptyString]> ∅) [] in
  let userData := UserData (Some (mkUser "u1" (Some "a@b.com") None)) in
  let w' := exec (fetchUserProfile "u1" (Resolved userData) t0) w in
  let p := new_profile "u1" userData t0 in
  localStorage w !! storage_key "u1" = Some EmptyString /\
  profile w' = Some p /\ persisted w' "u1" = Some p /\
  new_events w w' =
    [auth_getUser;
     localStorage_setItem (storage_key "u1") (JSON_stringify p)].
Proof.
  intros w userData w' p.
  split; [reflexivity|].
  exact (empty_record_is_absent "u1" userData t0 w eq_refl).
Defined.

Lemma signed_in_world_reachable : reachable signed_in_world.
Proof. apply reach_auth_change, reach_first_load. Defined.

Lemma held_profile_is_stored_witness :
  reachable signed_in_world /\
  (forall p, profile signed_in_world = Some p ->
             persisted signed_in_world (id p) = Some p) /\
  (forall u p, persisted signed_in_world u = Some p -> id p = u).
Proof.
  split; [exact signed_in_world_reachable|].
  exact (held_profile_is_stored signed_in_world signed_in_world_reachable).
Defined.

Lemma balance_at_most_start_witness :
  let w := exec (invoke (View3D "CCO" "Ethanol" true)
                   (profile signed_in_world) ok_response) signed_in_world in
  reachable w /\
  (forall p, profile w = Some p -> token_points p <= 1000) /\
  (forall u p, persisted w u = Some p -> token_points p <= 1000).
Proof.
  intros w.
  assert (Hr : reachable w)
    by (apply reach_gate; exact signed_in_world_reachable).
  split; [exact Hr|]. exact (balance_at_most_start w Hr).
Defined.

Lemma stored_profile_stable_witness :
  let p := mkUserProfile "u1" "a@b.com" 1000 t0 in
  let w' := exec (invoke (SmilesIsomers "CCO") (profile signed_in_world)
                    ok_response) signed_in_world in
  (reachable signed_in_world /\ step signed_in_world w' /\
   persisted signed_in_world "u1" = Some p) /\
  exists p',
    persisted w' "u1" = Some p' /\
    id p' = id p /\ email p' = email p /\ created_at p' = created_at p /\
    token_points p' <= token_points p.
Proof.
  intros p w'.
  assert (Hs : step signed_in_world w') by apply step_gate.
  assert (Hp : persisted signed_in_world "u1" = Some p) by reflexivity.
  split; [split; [exact signed_in_world_reachable|split; [exact Hs|exact Hp]]|].
  exact (stored_profile_stable signed_in_world w' "u1" p
           signed_in_world_reachable Hs Hp).
Defined.

Lemma debit_survives_sign_out_witness :
  let p := mkUserProfile "u1" "a@b.com" 50 t0 in
  let s := mkSession (mkUser "u1" (Some "a@b.com") (Some t0)) in
  let getUser : Outcome UserResponse := Rejected (Error "offline") in
  let w1 := exec (updatePoints (Some p) 15) (world_with 50) in
  let w2 := exec (onAuthStateChange "SIGNED_OUT" None getUser t0) w1 in
  let w3 := exec (onAuthStateChange "SIGNED_IN" (Some s) getUser t0) w2 in
  user_id (session_user s) = id p /\
  profile w2 = None /\ localStorage w2 = localStorage w1 /\
  new_events w1 w2 = [] /\
  profile w3 = Some (with_points p 15) /\
  localStorage w3 = localStorage w1 /\ new_events w2 w3 = [].
Proof.
  intros p s getUser w1 w2 w3.
  split; [reflexivity|].
  exact (debit_survives_sign_out p 15 s "SIGNED_OUT" "SIGNED_IN" getUser
           getUser t0 t0 (world_with 50) eq_refl).
Defined.

(** A 3-point and a 7-point run from 50 points: 40 in serial use. *)
Lemma serial_debits_add_up_witness :
  let p := mkUserProfile "u1" "a@b.com" 50 t0 in
  let g1 := View3D "CCO" "Ethanol" true in
  let g2 := SmilesIsomers "CCO" in
  let response1 : Outcome Response :=
    Resolved (mkResponse true (Resolved (mkPayload true (Some 1)
      (Some [mkIsomer 1 "CCO" "PGh0bWw+"]) None None None))) in
  let w1 := exec (invoke g1 (Some p) response1) (world_with 50) in
  let w2 := exec (invoke g2 (profile w1) ok_response) w1 in
  (charged g1 p response1 = true /\
   charged g2 (with_points p 47) ok_response = true) /\
  profile w2 = Some (with_points p 40) /\
  persisted w2 (id p) = Some (with_points p 40).
Proof.
  intros p g1 g2 response1 w1 w2.
  split; [split; reflexivity|].
  exact (serial_debits_add_up g1 g2 p response1 ok_response (world_with 50)
           eq_refl eq_refl).
Defined.

(** The same two runs closing over the same render: 43, not 40. *)
Lemma stale_profile_loses_debit_witness :
  let p := mkUserProfile "u1" "a@b.com" 50 t0 in
  let g1 := View3D "CCO" "Ethanol" true in
  let g2 := SmilesIsomers "CCO" in
  let response1 : Outcome Response :=
    Resolved (mkResponse true (Resolved (mkPayload true (Some 1)
      (Some [mkIsomer 1 "CCO" "PGh0bWw+"]) None None None))) in
  let w1 := exec (invoke g1 (Some p) response1) (world_with 50) in
  let w2 := exec (invoke g2 (Some p) ok_response) w1 in
  (charged g1 p response1 = true /\ charged g2 p ok_response = true) /\
  profile w2 = Some (with_points p 43) /\
  persisted w2 (id p) = Some (with_points p 43) /\
  calls (trace w2) = calls (trace (world_with 50)) ++ [47; 43].
Proof.
  intros p g1 g2 response1 w1 w2.
  split; [split; reflexivity|].
  exact (stale_profile_loses_debit g1 g2 p response1 ok_response
           (world_with 50) eq_refl eq_refl).
Defined.

(** A successful 2D answer that carries no structure. *)
Lemma unusable_success_not_charged_witness :
  let p := mkUserProfile "u1" "a@b.com" 50 t0 in
  let g := View2D "CCO" None false in
  let w := world_with 50 in
  let w' := exec (invoke g (Some p) ok_response) w in
  let evs := new_events w w' in
  (charge_after g = true /\ requested g = true /\ affordable g p = true /\
   delivered g ok_response = false) /\
  backend_succeeded ok_response = true /\
  fetches evs = [endpoint g] /\
  profile w' = profile w /\ localStorage w' = localStorage w /\
  calls evs = [] /\ writes evs = [].
Proof.
  intros p g w w' evs.
  split; [repeat split|]. split; [reflexivity|].
  exact (unusable_success_not_charged g p ok_response w
           eq_refl eq_refl eq_refl eq_refl).
Defined.

(** A 3D run whose request is rejected by the network. *)
Lemma busy_flag_lowered_witness :
  let p := mkUserProfile "u1" "a@b.com" 50 t0 in
  let g := View3D "CCO" "Ethanol" true in
  let response : Outcome Response := Rejected (Error "Failed to fetch") in
  let evs := new_events (world_with 50)
               (exec (invoke g (Some p) response) (world_with 50)) in
  (requested g = true /\ affordable g p = true) /\
  result (invoke g (Some p) response) (world_with 50) = Resolved tt /\
  ui (busy_flag g true) ∈ evs /\
  last evs = Some (ui (busy_flag g false)).
Proof.
  intros p g response evs.
  split; [split; reflexivity|].
  exact (busy_flag_lowered g p response (world_with 50) eq_refl eq_refl).
Defined.

Lemma no_profile_refused_witness :
  let g := FileAnalysis (Some (mkFile "ligand.mol2")) classical in
  requested g = true /\
  invoke g None ok_response (initial_world ∅) =
  emit (toast_error "Please wait for your profile to load.")
    (initial_world ∅).
Proof.
  intros g. split; [reflexivity|].
  exact (no_profile_refused g ok_response (initial_world ∅) eq_refl).
Defined.

Lemma unconfirmed_sign_up_is_an_error_witness :
  let u := mkUser "u1" (Some "a@b.com") None in
  let response := mkAuthResponse (Some u) None None in
  ((6 <= String.length "s3cret!")%nat /\ response_error response = None /\
   response_user response = Some u /\ confirmed u = false) /\
  effects (SignUp_handleSubmit "https://qpharma.example" "a@b.com" "s3cret!"
             "s3cret!" (fulfilled response)) =
  [preventDefault;
   shown (ui (setIsLoading true));
   supabase_signUp "a@b.com" "s3cret!" ("https://qpharma.example" +:+ "/");
   shown (toast_error
     "Please check your email and click the confirmation link before signing in.");
   shown (ui (setIsLoading false))].
Proof.
  intros u response.
  assert (Hlen : (6 <= String.length "s3cret!")%nat) by (cbn; lia).
  split; [repeat split; exact Hlen|].
  exact (unconfirmed_sign_up_is_an_error "https://qpharma.example" "a@b.com"
           "s3cret!" response u Hlen eq_refl eq_refl eq_refl).
Defined.

Example mol2_upload_accepted :
  new_events (world_with 50)
    (exec (handleFile ".mol2" 10 (mkFile "Ligand.MOL2") 2048)
       (world_with 50)) =
  [ui (setSelectedFile (Some (mkFile "Ligand.MOL2")));
   toast_success "File selected successfully"].
Proof. reflexivity. Qed.

Example dotless_mol2_name_accepted :
  ui (setSelectedFile (Some (mkFile "mol2")))
  ∈ new_events (world_with 50)
      (exec (handleFile ".mol2" 10 (mkFile "mol2") 2048) (world_with 50)).
Proof. apply list_elem_of_here. Qed.

Example oversized_upload_rejected :
  new_events (world_with 50)
    (exec (handleFile ".mol2" 10 (mkFile "notes.txt") 10485761)
       (world_with 50)) =
  [toast_error "File size must be less than 10MB"].
Proof. reflexivity. Qed.

Example search_caffeine :
  map name (filteredMolecules "CAF" "All") = ["Caffeine"].
Proof. reflexivity. Qed.

Example category_is_a_substring_match :
  map name (filteredMolecules EmptyString "Analgesic")
  = ["Paracetamol"; "Ibuprofen"; "Aspirin"; "Morphine"].
Proof. reflexivity. Qed.

Example download_name_example :
  downloadResults_name (Some "C[C@H](O)/C=C\C") =
  "smiles_isomers_C_C_H__O__C_C_C.json".
Proof. reflexivity. Qed.
